(** * golog: a structured logger and its HTTP logging middleware

    A shallow embedding of the Go package [golog] (the logger of
    [part_000] and the middleware of [middleware.go]) and the proofs of
    the properties its specification states.

    Go maps are reference values: a map lives in a store and is named by
    its location, so a write through one reference is seen through every
    other one.  Code that can panic returns a [result]. *)

From Stdlib Require Import ZArith String List Lia.
From stdpp Require Import base option gmap strings list fin_maps pretty.

Open Scope Z_scope.
Open Scope string_scope.
Open Scope list_scope.

(** ** Go values held in an [interface{}] *)

(** The values a field mapping can hold.  [VError msg stack] is an error
    whose [Error()] text is [msg]; [stack] is what the verbose verb
    prints after it for an error that carries a stack trace, and is empty
    for a plain error.  [VFunc] is a function or pointer to function and
    [VOpaque] any other value (a map, a slice, a struct): both are
    identified by the text [fmt] prints for them. *)
Inductive value : Type :=
| VNil
| VString (s : string)
| VInt (n : Z)
| VError (msg stack : string)
| VFunc (shown : string)
| VOpaque (shown : string).

(** [fmt.Sprintf("%+v", val)]. *)
Definition Sprintf_plus_v (val : value) : string :=
  match val with
  | VNil => "<nil>"
  | VString s => s
  | VInt n => pretty n
  | VError msg stack => msg +:+ stack
  | VFunc shown => shown
  | VOpaque shown => shown
  end.

(** What the logging library tests with [reflect] before it stores a
    field: function values are refused. *)
Definition is_func (val : value) : bool :=
  match val with
  | VFunc _ => true
  | _ => false
  end.

(** A Go call returns or panics. *)
Inductive result (A : Type) : Type :=
| Ok (a : A)
| Panic (why : string).
Arguments Ok {A} a.
Arguments Panic {A} why.

(** ** Level *)

Definition Level : Type := Z.

Definition DEBUG : Level := 0.
Definition INFO : Level := 1.
Definition WARN : Level := 2.
Definition ERROR : Level := 3.

Definition level_names : list string := ["debug"; "info"; "warning"; "error"].

(** [Level.String]: an index into a four-element array; an index outside
    the array is a run-time panic. *)
Definition Level_String (l : Level) : result string :=
  if (0 <=? l)%Z && (l <? 4)%Z then
    match level_names !! Z.to_nat l with
    | Some s => Ok s
    | None => Panic "index out of range"
    end
  else Panic "index out of range".

Definition lookupMap : gmap string Level :=
  list_to_map [("debug", DEBUG); ("info", INFO); ("warn", WARN); ("error", ERROR)].

(** [GetLevel]: a lookup that misses yields the zero value of [Level]. *)
Definition GetLevel (s : string) : Level := default 0 (lookupMap !! s).

(** The levels of the logging library, most severe first. *)
Definition PanicLevel : Z := 0.
Definition FatalLevel : Z := 1.
Definition ErrorLevel : Z := 2.
Definition WarnLevel : Z := 3.
Definition InfoLevel : Z := 4.
Definition DebugLevel : Z := 5.
Definition TraceLevel : Z := 6.

Definition toLogrusLevel (l : Level) : Z :=
  if (l =? DEBUG)%Z then DebugLevel
  else if (l =? INFO)%Z then InfoLevel
  else if (l =? WARN)%Z then WarnLevel
  else if (l =? ERROR)%Z then ErrorLevel
  else InfoLevel.

(** ** The store of maps and the log sinks *)

Definition loc : Type := positive.

Inductive Writer : Type :=
| Stdout
| Sink (id : nat).

(** One structured entry written to a sink. *)
Record LogLine : Type := {
  line_out : Writer;
  line_severity : Z;
  line_message : string;
  line_fields : gmap string value
}.

(** [maps] is the heap of Go maps; a location with no map behind it is
    the nil map.  [written] is what the sinks have received, oldest
    first. *)
Record World : Type := {
  maps : gmap loc (gmap string value);
  written : list LogLine
}.

Definition deref (st : World) (p : loc) : gmap string value :=
  default ∅ (maps st !! p).

Definition store (p : loc) (m : gmap string value) (st : World) : World :=
  {| maps := <[p := m]> (maps st); written := written st |}.

(** A map literal or [make]: a map at a location not in use. *)
Definition alloc (m : gmap string value) (st : World) : World * loc :=
  let p := fresh (dom (maps st)) in (store p m st, p).

(** ** Logger *)

Definition TagKey : string := "tag".
Definition ErrorKey : string := "error".
Definition StacktraceKey : string := "stack_trace".

(** An entry of the logging library: the level and output of the logger
    it belongs to, and its field map.  Entries are never written after
    they are built, so the pointer to an entry is modelled by the entry. *)
Record Entry : Type := {
  Logger_Level : Z;
  Logger_Out : Writer;
  Data : loc
}.

Record Logger : Type := { logger : Entry }.

(** [New]. *)
Definition New (l : Level) (o : Writer) (st : World) : World * Logger :=
  let '(st', p) := alloc ∅ st in
  (st', {| logger := {| Logger_Level := toLogrusLevel l; Logger_Out := o; Data := p |} |}).

(** [Entry.WithFields] of the logging library: a new map receives the
    entry's fields and then the given ones, function values left out;
    the new entry points to it. *)
Definition storable (m : gmap string value) : gmap string value :=
  filter (λ kv, is_func kv.2 = false) m.

Definition Entry_WithFields (e : Entry) (fields : loc) (st : World) : World * Entry :=
  let data := storable (deref st fields) ∪ deref st (Data e) in
  let '(st', p) := alloc data st in
  (st', {| Logger_Level := Logger_Level e; Logger_Out := Logger_Out e; Data := p |}).

(** [fields[StacktraceKey] = fmt.Sprintf("%+v", val)] under its guard: a
    write into the map the caller passed. *)
Definition add_stack_trace (fields : loc) (st : World) : World :=
  match maps st !! fields with
  | Some m =>
      match m !! ErrorKey with
      | Some val => store fields (<[StacktraceKey := VString (Sprintf_plus_v val)]> m) st
      | None => st
      end
  | None => st
  end.

(** [Logger.WithFields]. *)
Definition WithFields (l : Logger) (fields : loc) (st : World) : World * Logger :=
  let st1 := add_stack_trace fields st in
  let '(st2, e) := Entry_WithFields (logger l) fields st1 in
  (st2, {| logger := e |}).

(** [Entry.Logln]: one entry is written when the logger's level enables
    the given one. *)
Definition Logln (e : Entry) (level : Z) (msg : string) (st : World) : World :=
  if (level <=? Logger_Level e)%Z then
    {| maps := maps st;
       written := written st ++
         [{| line_out := Logger_Out e; line_severity := level;
             line_message := msg; line_fields := deref st (Data e) |}] |}
  else st.

Definition Debugln (l : Logger) (msg : string) : World → World := Logln (logger l) DebugLevel msg.
Definition Infoln (l : Logger) (msg : string) : World → World := Logln (logger l) InfoLevel msg.
Definition Warnln (l : Logger) (msg : string) : World → World := Logln (logger l) WarnLevel msg.
Definition Errorln (l : Logger) (msg : string) : World → World := Logln (logger l) ErrorLevel msg.

(** The fields a logger has accumulated. *)
Definition fields_of (st : World) (l : Logger) : gmap string value :=
  deref st (Data (logger l)).

(** What [WithFields] leaves in the caller's map. *)
Definition enrich (m : gmap string value) : gmap string value :=
  match m !! ErrorKey with
  | Some val => <[StacktraceKey := VString (Sprintf_plus_v val)]> m
  | None => m
  end.

(** ** Correlation context *)

(** What a context can bind: any value, or a logger. *)
Inductive any : Type :=
| AValue (v : value)
| ALogger (l : Logger).

(** Keys are compared with their type: a key of the package's own type
    [contextKey] never equals a key of another type with the same text. *)
Inductive ctxkey : Type :=
| contextKey (name : string)
| foreignKey (type name : string).

#[global] Instance ctxkey_eq_dec : EqDecision ctxkey.
Proof. solve_decision. Defined.

Definition ContextKeyRequestID : ctxkey := contextKey "requestId".
Definition ContextKeyLogger : ctxkey := contextKey "logger".

(** [context.Context]: layers of bindings over the empty context. *)
Inductive Context : Type :=
| Background
| WithValue (parent : Context) (key : ctxkey) (val : any).

(** [ctx.Value(key)]: the innermost binding, nil when there is none. *)
Fixpoint Value (ctx : Context) (key : ctxkey) : any :=
  match ctx with
  | Background => AValue VNil
  | WithValue parent k val => if decide (key = k) then val else Value parent key
  end.

(** [GetRequestID]: the type assertion panics on a value that is no
    string. *)
Definition GetRequestID (ctx : Context) : result string :=
  match Value ctx ContextKeyRequestID with
  | AValue VNil => Ok "Unknown"
  | AValue (VString s) => Ok s
  | _ => Panic "interface conversion: interface {} is not string"
  end.

Definition WithLogger (ctx : Context) (l : Logger) : Context :=
  WithValue ctx ContextKeyLogger (ALogger l).

(** [GetLogger]. *)
Definition GetLogger (ctx : Context) (st : World) : World * result Logger :=
  match Value ctx ContextKeyLogger with
  | AValue VNil => let '(st', l) := New INFO Stdout st in (st', Ok l)
  | ALogger l => (st, Ok l)
  | AValue _ => (st, Panic "interface conversion: interface {} is not golog.Logger")
  end.

(** ** Response recorder *)

(** A byte slice; [None] is the nil slice. *)
Definition slice : Type := option (list Byte.byte).

Definition StatusOK : Z := 200.

(** The interface [http.ResponseWriter], implemented by the sink the
    recorder wraps.  The header set belongs to the sink; [Write] returns
    the count and the error (nil is [VNil]). *)
Class ResponseWriter (W : Type) : Type := {
  sink_Header : W → gmap string (list string);
  sink_Header_Add : string → string → W → W;
  sink_WriteHeader : Z → W → W;
  sink_Write : slice → W → W * (Z * value)
}.

Record ResponseWriterRecorder (W : Type) : Type := {
  status : Z;
  body : slice;
  responseWriter : W;
  isStatusSet : bool
}.
Arguments status {W} _.
Arguments body {W} _.
Arguments responseWriter {W} _.
Arguments isStatusSet {W} _.

Module Recorder.
Section Methods.
Context {W : Type} `{!ResponseWriter W}.

Definition NewResponseWriterRecorder (w : W) : ResponseWriterRecorder W :=
  {| status := 200; body := None; responseWriter := w; isStatusSet := false |}.

Definition Status (r : ResponseWriterRecorder W) : Z := status r.

Definition Body (r : ResponseWriterRecorder W) : slice := body r.

Definition Header (r : ResponseWriterRecorder W) : gmap string (list string) :=
  sink_Header (responseWriter r).

(** [r.Header().Add(key, val)]: the header set is the sink's own. *)
Definition Header_Add (key val : string) (r : ResponseWriterRecorder W) : ResponseWriterRecorder W :=
  {| status := status r; body := body r;
     responseWriter := sink_Header_Add key val (responseWriter r);
     isStatusSet := isStatusSet r |}.

Definition WriteHeader (statusCode : Z) (r : ResponseWriterRecorder W) : ResponseWriterRecorder W :=
  {| status := statusCode; body := body r;
     responseWriter := sink_WriteHeader statusCode (responseWriter r);
     isStatusSet := true |}.

Definition Write (b : slice) (r : ResponseWriterRecorder W) : ResponseWriterRecorder W * (Z * value) :=
  let r1 := if isStatusSet r then r else WriteHeader StatusOK r in
  let '(w', res) := sink_Write b (responseWriter r1) in
  ({| status := status r1; body := b; responseWriter := w'; isStatusSet := isStatusSet r1 |}, res).

(** The calls a handler can make on the recorder, and a run of them. *)
Inductive call : Type :=
| CallWriteHeader (statusCode : Z)
| CallWrite (b : slice).

Definition step (r : ResponseWriterRecorder W) (c : call) : ResponseWriterRecorder W :=
  match c with
  | CallWriteHeader statusCode => WriteHeader statusCode r
  | CallWrite b => fst (Write b r)
  end.

Definition run (calls : list call) (r : ResponseWriterRecorder W) : ResponseWriterRecorder W :=
  fold_left step calls r.
End Methods.
End Recorder.

(** ** Requests *)

(** A request body stream: the bytes still to be read, and how the
    stream ends after them, at end of file ([VNil]) or with a read
    error. *)
Record Reader : Type := {
  pending : list Byte.byte;
  failure : value
}.

(** [ioutil.ReadAll]: the bytes read and the error; the stream is left
    drained. *)
Definition ReadAll (rd : Reader) : Reader * (list Byte.byte * value) :=
  ({| pending := []; failure := failure rd |}, (pending rd, failure rd)).

(** [ioutil.NopCloser(bytes.NewBuffer(buf))]. *)
Definition NewBuffer (buf : list Byte.byte) : Reader :=
  {| pending := buf; failure := VNil |}.

Inductive ReadCloser : Type :=
| NoBody
| Stream (rd : Reader).

Record Request : Type := {
  Method : string;
  URL_Path : string;
  RequestURI : string;
  Proto : string;
  RemoteAddr : string;
  req_Header : gmap string (list string);
  req_Body : ReadCloser;
  req_ctx : Context
}.

Definition WithContext (r : Request) (ctx : Context) : Request :=
  {| Method := Method r; URL_Path := URL_Path r; RequestURI := RequestURI r;
     Proto := Proto r; RemoteAddr := RemoteAddr r; req_Header := req_Header r;
     req_Body := req_Body r; req_ctx := ctx |}.

Definition set_Body (b : ReadCloser) (r : Request) : Request :=
  {| Method := Method r; URL_Path := URL_Path r; RequestURI := RequestURI r;
     Proto := Proto r; RemoteAddr := RemoteAddr r; req_Header := req_Header r;
     req_Body := b; req_ctx := req_ctx r |}.

(** [r.UserAgent()]. *)
Definition UserAgent (r : Request) : string :=
  match req_Header r !! "User-Agent" with
  | Some (v :: _) => v
  | _ => EmptyString
  end.

(** What the middleware takes from outside the package for one request:
    the identifier drawn, the clock, the JSON decoder (the decoded value
    or the error) and the interface values of a header set. *)
Record Env : Type := {
  uuid_New : string;
  time_Now : Z;
  time_Since : Z → value;
  json_Unmarshal : list Byte.byte → value + value;
  header_value : gmap string (list string) → value
}.

(** ** Function bodies with deferred calls *)

(** How a call ends. *)
Inductive completion : Type :=
| Returned
| Panicked (v : value).

Module Defer.
Section Bodies.
Context {H : Type}.

(** A deferred call, its arguments already evaluated. *)
Definition thunk : Type := H → H * completion.

(** A function body over the heap [H]: the heap it leaves, the calls
    it deferred (latest first), and its value or the panic that cut it
    short. *)
Definition body (A : Type) : Type := H → H * list thunk * (A + value).

Definition ret {A} (a : A) : body A := λ h, (h, [], inl a).

Definition bind {A B} (m : body A) (k : A → body B) : body B :=
  λ h, let '(h1, d1, x) := m h in
       match x with
       | inl a => let '(h2, d2, y) := k a h1 in (h2, d2 ++ d1, y)
       | inr p => (h1, d1, inr p)
       end.

(** [defer f(args)]. *)
Definition defer (t : thunk) : body unit := λ h, (h, [t], inl tt).

(** A statement that only changes the heap. *)
Definition modify (f : H → H) : body unit := λ h, (f h, [], inl tt).

(** A call that may panic. *)
Definition invoke (f : H → H * completion) : body unit :=
  λ h, let '(h', c) := f h in
       (h', [], match c with Returned => inl tt | Panicked v => inr v end).

(** When the function exits, by return or by panic, the deferred calls
    run, latest first; a panic in one of them replaces the pending
    one. *)
Fixpoint unwind (deferred : list thunk) (h : H) (c : completion) : H * completion :=
  match deferred with
  | [] => (h, c)
  | t :: rest =>
      let '(h', c') := t h in
      unwind rest h' (match c' with Returned => c | Panicked _ => c' end)
  end.

Definition exit {A} (x : A + value) : completion :=
  match x with inl _ => Returned | inr v => Panicked v end.

(** A call of a function with this body. *)
Definition run {A} (m : body A) (h : H) : H * completion :=
  let '(h1, deferred, x) := m h in unwind deferred h1 (exit x).
End Bodies.
Arguments thunk H : clear implicits.
Arguments body H A : clear implicits.
End Defer.

#[global] Instance body_ret {H} : MRet (Defer.body H) := λ A, Defer.ret.
#[global] Instance body_bind {H} : MBind (Defer.body H) := λ A B k m, Defer.bind m k.

(** ** The logging middleware *)

Record MiddlewareOptions : Type := { LogResponse : bool }.

(** A pointer is nil or the address of a variable; [&x] is the second. *)
Definition pointer : Type := option loc.

Definition address_of (variable : loc) : pointer := Some variable.

Definition is_nil (p : pointer) : bool :=
  match p with
  | None => true
  | Some _ => false
  end.

(** The steps of one request, recorded as they are taken. *)
Inductive Step : Type :=
| CallLogRequest
| CallHandler
| CallLogResponse.

#[global] Instance Step_eq_dec : EqDecision Step.
Proof. solve_decision. Defined.

Module Middleware.
Section WithSink.
Context {W : Type} `{!ResponseWriter W}.
Variable env : Env.

(** What the closure reaches through pointers: the maps and sinks, the
    request [r] points to, the recorder once it is made, and the steps
    taken. *)
Record Heap : Type := {
  world : World;
  request : Request;
  recorder : option (ResponseWriterRecorder W);
  steps : list Step
}.

(** A downstream handler: it is given the recorder and the request,
    may change both and the world, and returns or panics. *)
Definition Handler : Type :=
  ResponseWriterRecorder W → Request → World →
  ResponseWriterRecorder W * Request * World * completion.

Definition convertRequestBody (requestBody : value) : value :=
  match requestBody with
  | VOpaque shown => VOpaque shown
  | VString s => VString s
  | _ => requestBody
  end.

(** [logger.WithFields(map[string]interface{}{"bodyError": err})]. *)
Definition with_bodyError (lg : Logger) (err : value) (st : World) : World * Logger :=
  let '(st1, m) := alloc {[ "bodyError" := err ]} st in
  WithFields lg m st1.

Definition logRequest (lg : Logger) (r : Request) (st : World) : World * Request :=
  let '(st1, lg1, r1, requestBody) :=
    match req_Body r with
    | NoBody => (st, lg, r, VNil)
    | Stream rd =>
        let '(rd', (buf, err)) := ReadAll rd in
        match err with
        | VNil =>
            let r' := set_Body (Stream (NewBuffer buf)) r in
            match json_Unmarshal env buf with
            | inl decoded => (st, lg, r', decoded)
            | inr err' =>
                let '(st', lg') := with_bodyError lg err' st in
                (st', lg', r', VString (string_of_list_byte buf))
            end
        | _ =>
            let '(st', lg') := with_bodyError lg err st in
            (st', lg', set_Body (Stream rd') r, VNil)
        end
    end in
  let m := convertRequestBody requestBody in
  let '(st2, fs) :=
    alloc (list_to_map
             [("remoteAddr", VString (RemoteAddr r1));
              ("protocol", VString (Proto r1));
              ("method", VString (Method r1));
              ("header", header_value env (req_Header r1));
              ("uri", VString (RequestURI r1));
              ("userAgent", VString (UserAgent r1));
              ("requestBody", m)]) st1 in
  let '(st3, lg3) := WithFields lg1 fs st2 in
  (Debugln lg3 EmptyString st3, r1).

Definition logResponse (lg : Logger) (start : Z) (r : Request)
    (w : ResponseWriterRecorder W) (st : World) : World :=
  let '(st1, lg1, responseBody) :=
    match Recorder.Body w with
    | Some b =>
        match json_Unmarshal env b with
        | inl decoded => (st, lg, decoded)
        | inr err =>
            let '(st', lg') := with_bodyError lg err st in
            (st', lg', VString (string_of_list_byte b))
        end
    | None => (st, lg, VNil)
    end in
  let '(st2, fs) :=
    alloc (list_to_map
             [("duration", time_Since env start);
              ("header", header_value env (Recorder.Header w));
              ("responseBody", responseBody);
              ("status", VInt (Recorder.Status w));
              ("api", VString (Method r +:+ "_" +:+ URL_Path r))]) st1 in
  let '(st3, lg3) := WithFields lg1 fs st2 in
  Debugln lg3 EmptyString st3.

Definition nil_dereference : value :=
  VError "runtime error: invalid memory address or nil pointer dereference" EmptyString.

Definition set_request (f : Request → Request) (h : Heap) : Heap :=
  {| world := world h; request := f (request h); recorder := recorder h; steps := steps h |}.

Definition set_recorder (f : option (ResponseWriterRecorder W) → option (ResponseWriterRecorder W))
    (h : Heap) : Heap :=
  {| world := world h; request := request h; recorder := f (recorder h); steps := steps h |}.

Definition took (s : Step) (h : Heap) : Heap :=
  {| world := world h; request := request h; recorder := recorder h;
     steps := steps h ++ [s] |}.

(** A statement on the world that yields a value. *)
Definition in_world {A} (f : World → World * A) : Defer.body Heap A :=
  λ h, let '(st, a) := f (world h) in
       ({| world := st; request := request h; recorder := recorder h; steps := steps h |},
        [], inl a).

(** [logRequest(loggerWithRequestID, r)]. *)
Definition call_logRequest (lg : Logger) (h : Heap) : Heap :=
  let '(st, r) := logRequest lg (request h) (world h) in
  {| world := st; request := r; recorder := recorder h;
     steps := steps h ++ [CallLogRequest] |}.

(** The deferred [logResponse(loggerWithRequestID, start, r,
    responseWriterRecorder)]: the logger and the start time are
    values fixed when the call is deferred, the request and the
    recorder are read through their pointers when it runs. *)
Definition call_logResponse (lg : Logger) (start : Z) : Defer.thunk Heap :=
  λ h, let h' := took CallLogResponse h in
       match recorder h' with
       | Some rec =>
           ({| world := logResponse lg start (request h') rec (world h');
               request := request h'; recorder := recorder h'; steps := steps h' |},
            Returned)
       | None => (h', Panicked nil_dereference)
       end.

(** [next.ServeHTTP(responseWriterRecorder, r)]. *)
Definition call_next (next : Handler) (h : Heap) : Heap * completion :=
  let h' := took CallHandler h in
  match recorder h' with
  | Some rec =>
      let '(rec', r', st', c) := next rec (request h') (world h') in
      ({| world := st'; request := r'; recorder := Some rec'; steps := steps h' |}, c)
  | None => (h', Panicked nil_dereference)
  end.

(** The body of the closure [NewMiddlewareWithOptions] returns. *)
Definition closure (next : Handler) (logger : Logger) (options : MiddlewareOptions)
    (w : W) : Defer.body Heap unit :=
  let start := time_Now env in
  let requestID := uuid_New env in
  Defer.modify (set_request (λ r,
    WithContext r (WithValue (req_ctx r) ContextKeyRequestID (AValue (VString requestID)))));;
  loggerWithRequestID ← in_world (λ st,
    let '(st1, m) := alloc {[ "requestId" := VString requestID ]} st in
    WithFields logger m st1);
  Defer.modify (set_request (λ r,
    WithContext r (WithLogger (req_ctx r) loggerWithRequestID)));;
  Defer.modify (call_logRequest loggerWithRequestID);;
  Defer.modify (set_recorder (λ _, Some (Recorder.NewResponseWriterRecorder w)));;
  (if LogResponse options
   then Defer.defer (call_logResponse loggerWithRequestID start)
   else mret tt);;
  Defer.modify (set_recorder (fmap (Recorder.Header_Add "Request-ID" requestID)));;
  Defer.invoke (call_next next).

(** [ServeHTTP] of the handler the middleware returns. *)
Definition ServeHTTP (next : Handler) (logger : Logger) (options : MiddlewareOptions)
    (w : W) (r : Request) (st : World) : Heap * completion :=
  Defer.run (closure next logger options w)
    {| world := st; request := r; recorder := None; steps := [] |}.

(** [NewMiddlewareWithOptions]; [logger_var] is the variable that holds
    the parameter [logger]. *)
Definition NewMiddlewareWithOptions (next : Handler) (logger : Logger)
    (options : MiddlewareOptions) (logger_var : loc) (st : World)
    : World * (W → Request → World → Heap * completion) :=
  let '(st', logger') :=
    if is_nil (address_of logger_var) then New INFO Stdout st else (st, logger) in
  (st', ServeHTTP next logger' options).

Definition NewMiddleware (next : Handler) (logger : Logger) :=
  NewMiddlewareWithOptions next logger {| LogResponse := true |}.
End WithSink.
End Middleware.

(** ** A sink and an environment to run the code on *)

(** [textproto.CanonicalMIMEHeaderKey], which [http.Header.Add] applies
    to the key: a key made of header field bytes only has the first
    letter and every letter after a hyphen in upper case and the other
    letters in lower case; any other key is left as it is. *)
Definition validHeaderFieldByte (c : Ascii.ascii) : bool :=
  let n := Ascii.N_of_ascii c in
  ((48 <=? n)%N && (n <=? 57)%N) || ((65 <=? n)%N && (n <=? 90)%N)
  || ((97 <=? n)%N && (n <=? 122)%N)
  || existsb (N.eqb n) [33; 35; 36; 37; 38; 39; 42; 43; 45; 46; 94; 95; 96; 124; 126]%N.

Fixpoint canonical_casing (upper : bool) (s : string) : string :=
  match s with
  | EmptyString => EmptyString
  | String c rest =>
      let n := Ascii.N_of_ascii c in
      let c' :=
        if upper && (97 <=? n)%N && (n <=? 122)%N then Ascii.ascii_of_N (n - 32)
        else if negb upper && (65 <=? n)%N && (n <=? 90)%N then Ascii.ascii_of_N (n + 32)
        else c in
      String c' (canonical_casing (Ascii.N_of_ascii c' =? 45)%N rest)
  end.

Definition CanonicalMIMEHeaderKey (s : string) : string :=
  if forallb validHeaderFieldByte (list_ascii_of_string s)
  then canonical_casing true s
  else s.

(** [http.Header.Add]. *)
Definition http_Header_Add (key val : string) (h : gmap string (list string))
    : gmap string (list string) :=
  let k := CanonicalMIMEHeaderKey key in
  <[k := default [] (h !! k) ++ [val]]> h.

(** What a sink has delivered: its header set, the status committed (by
    the first [WriteHeader], or by the first [Write] as 200) and the
    bytes of the body. *)
Record Delivered : Type := {
  sent_header : gmap string (list string);
  sent_status : option Z;
  sent_body : list Byte.byte
}.

#[global] Instance Delivered_ResponseWriter : ResponseWriter Delivered := {
  sink_Header w := sent_header w;
  sink_Header_Add key val w :=
    {| sent_header := http_Header_Add key val (sent_header w);
       sent_status := sent_status w; sent_body := sent_body w |};
  sink_WriteHeader statusCode w :=
    {| sent_header := sent_header w;
       sent_status := Some (default statusCode (sent_status w));
       sent_body := sent_body w |};
  sink_Write b w :=
    ({| sent_header := sent_header w;
        sent_status := Some (default StatusOK (sent_status w));
        sent_body := sent_body w ++ default [] b |},
     (Z.of_nat (length (default [] b)), VNil))
}.

Definition no_response : Delivered :=
  {| sent_header := ∅; sent_status := None; sent_body := [] |}.

(** The documents [{"a":1}] and [{"id":7}]. *)
Definition dquote : string := String (Ascii.ascii_of_nat 34) EmptyString.
Definition json_a_1 : string := "{" +:+ dquote +:+ "a" +:+ dquote +:+ ":1}".
Definition json_id_7 : string := "{" +:+ dquote +:+ "id" +:+ dquote +:+ ":7}".

(** An environment whose decoder knows these two documents and refuses
    every other text. *)
Definition sample_env : Env :=
  {| uuid_New := "6ba7b810-9dad-11d1-80b4-00c04fd430c8";
     time_Now := 0;
     time_Since := λ _, VOpaque "1.5ms";
     json_Unmarshal := λ buf,
       if decide (string_of_list_byte buf = json_a_1) then inl (VOpaque "map[a:1]")
       else if decide (string_of_list_byte buf = json_id_7) then inl (VOpaque "map[id:7]")
       else inr (VError "invalid character" EmptyString);
     header_value := λ _, VOpaque "map[]" |}.

(** A request for the examples: POST /items with the given body. *)
Definition post_items (b : ReadCloser) : Request :=
  {| Method := "POST"; URL_Path := "/items"; RequestURI := "/items";
     Proto := "HTTP/1.1"; RemoteAddr := "10.0.0.1:4000";
     req_Header := {[ "User-Agent" := ["curl/8"] ]};
     req_Body := b; req_ctx := Background |}.

Definition empty_world : World := {| maps := ∅; written := [] |}.

(** A logger at DEBUG on standard output, in a world with nothing else. *)
Definition base_logger : World * Logger := New DEBUG Stdout empty_world.

(** A handler that answers 201 with the document [{"id":7}], and one
    that writes half an answer and panics. *)
Definition created_handler : Middleware.Handler (W:=Delivered) :=
  λ rec r st,
    let rec1 := Recorder.WriteHeader 201 rec in
    let '(rec2, _) := Recorder.Write (Some (list_byte_of_string json_id_7)) rec1 in
    (rec2, r, st, Returned).

Definition panicking_handler : Middleware.Handler (W:=Delivered) :=
  λ rec r st,
    let '(rec1, _) := Recorder.Write (Some (list_byte_of_string "half")) rec in
    (rec1, r, st, Panicked (VString "boom")).

(** The fields of the entries written, oldest first, read at a key. *)
Definition written_at (key : string) (st : World) : list (option value) :=
  map (λ line, line_fields line !! key) (written st).

(** ** The default logger *)

Section Environment.
(** [strings.ToLower], and the process environment [os.LookupEnv] reads. *)
Variable ToLower : string → string.
Variable environ : gmap string string.

Definition getEnv (key fallback : string) : string :=
  match environ !! key with
  | Some value => ToLower value
  | None => fallback
  end.

Definition NewDefault (st : World) : World * Logger :=
  New (GetLevel (getEnv "LOGGING_LEVEL" "debug")) Stdout st.
End Environment.

(** [strings.ToLower] on ASCII text. *)
Definition lower_ascii (c : Ascii.ascii) : Ascii.ascii :=
  let n := Ascii.N_of_ascii c in
  if (65 <=? n)%N && (n <=? 90)%N then Ascii.ascii_of_N (n + 32) else c.

Fixpoint ToLower_ASCII (s : string) : string :=
  match s with
  | EmptyString => EmptyString
  | String c rest => String (lower_ascii c) (ToLower_ASCII rest)
  end.

(** ** What a sink receives through the recorder *)

Section Sinks.
Context {W : Type} `{!ResponseWriter W}.

(** A call made on the sink itself. *)
Definition sink_step (w : W) (c : Recorder.call) : W :=
  match c with
  | Recorder.CallWriteHeader statusCode => sink_WriteHeader statusCode w
  | Recorder.CallWrite b => (sink_Write b w).1
  end.

Definition sink_run (calls : list Recorder.call) (w : W) : W :=
  fold_left sink_step calls w.

(** The calls a run on a recorder just created passes on: the run
    itself, after a [WriteHeader(200)] when it starts with a [Write]. *)
Definition forwarded (calls : list Recorder.call) : list Recorder.call :=
  match calls with
  | Recorder.CallWrite b :: _ => Recorder.CallWriteHeader StatusOK :: calls
  | _ => calls
  end.

(** The payloads of the writes of a run, in order. *)
Definition payloads (calls : list Recorder.call) : list slice :=
  omap (λ c, match c with
             | Recorder.CallWrite b => Some b
             | Recorder.CallWriteHeader _ => None
             end) calls.
End Sinks.

(** ** What the middleware hands to the handler *)

Section Probe.
Context {W : Type} `{!ResponseWriter W}.

(** A handler that does nothing: run under the middleware with response
    logging off, it leaves in the heap what it was given. *)
Definition idle_handler : Middleware.Handler (W:=W) :=
  λ rec r st, (rec, r, st, Returned).

Definition handed (env : Env) (lg : Logger) (w : W) (r : Request) (st : World)
    : Middleware.Heap (W:=W) :=
  (Middleware.ServeHTTP env idle_handler lg {| LogResponse := false |} w r st).1.

(** The entry [Debugln] writes for a logger whose level enables it. *)
Definition debug_line (st : World) (lg : Logger) : LogLine :=
  {| line_out := Logger_Out (logger lg); line_severity := DebugLevel;
     line_message := EmptyString; line_fields := fields_of st lg |}.
End Probe.

(** Every map of the first world is the same in the second, and the
    second has written what the first had, and then [more]. *)
Definition extends (st st' : World) (more : list LogLine) : Prop :=
  (∀ q, is_Some (maps st !! q) → maps st' !! q = maps st !! q)
  ∧ written st' = written st ++ more.

(** [logger.WithFields(map[string]interface{}{"requestId": requestID})],
    the logger the closure derives for a request. *)
Definition request_logger (env : Env) (lg : Logger) (st : World) : World * Logger :=
  let '(st1, m) := alloc {[ "requestId" := VString (uuid_New env) ]} st in
  WithFields lg m st1.

(** * Properties *)

(** ** Level *)

Example Level_String_warn : Level_String WARN = Ok "warning".
Proof. reflexivity. Qed.

Example GetLevel_warn : GetLevel "warn" = WARN.
Proof. vm_compute. reflexivity. Qed.

Lemma lookupMap_lookup (s : string) (l : Level) :
  lookupMap !! s = Some l →
  (s = "debug" ∧ l = DEBUG) ∨ (s = "info" ∧ l = INFO) ∨
  (s = "warn" ∧ l = WARN) ∨ (s = "error" ∧ l = ERROR).
Proof.
  unfold lookupMap. intros Hl.
  apply elem_of_list_to_map_2 in Hl.
  repeat (apply elem_of_cons in Hl as [Hl | Hl]; [inversion Hl; subst; tauto |]).
  by apply elem_of_nil in Hl.
Qed.

(** [GetLevel] never fails and its result is one of the four levels; a
    name that is none of debug, info, warn, error yields [DEBUG]. *)
Lemma GetLevel_total (s : string) :
  (0 <= GetLevel s < 4)%Z ∧
  (s ≠ "debug" → s ≠ "info" → s ≠ "warn" → s ≠ "error" → GetLevel s = DEBUG).
Proof.
  unfold GetLevel. destruct (lookupMap !! s) as [l|] eqn:Hl; simpl.
  - apply lookupMap_lookup in Hl.
    destruct Hl as [[-> ->] | [[-> ->] | [[-> ->] | [-> ->]]]];
      (split; [done | congruence]).
  - split; [done | reflexivity].
Qed.

(** [Level.String] returns a name for each of the four levels. *)
Lemma Level_String_in_range (l : Level) :
  (0 <= l < 4)%Z → ∃ name, Level_String l = Ok name.
Proof.
  intros Hl.
  assert (l = 0 ∨ l = 1 ∨ l = 2 ∨ l = 3)%Z as [-> | [-> | [-> | ->]]] by lia;
    eexists; reflexivity.
Qed.

(** C7, as stated, fails at WARN: its name is "warning", which
    [GetLevel] does not know and sends to DEBUG. *)
Lemma roundtrip_fails_at_WARN :
  Level_String WARN = Ok "warning" ∧ GetLevel "warning" = DEBUG ∧ GetLevel "warning" ≠ WARN.
Proof. vm_compute. repeat split; discriminate. Qed.

(** C7 (amended): for every level L among DEBUG, INFO and ERROR, the
    name of L is sent back to L by [GetLevel]. *)
Theorem Level_roundtrip (l : Level) :
  l = DEBUG ∨ l = INFO ∨ l = ERROR →
  ∃ name, Level_String l = Ok name ∧ GetLevel name = l.
Proof.
  intros [-> | [-> | ->]]; eexists; split; try reflexivity; vm_compute; reflexivity.
Qed.

Lemma Level_roundtrip_witness :
  ∃ name, Level_String ERROR = Ok name ∧ GetLevel name = ERROR.
Proof. apply (Level_roundtrip ERROR). right. right. reflexivity. Defined.

(** C8: [Level.String] at the level 4, a value of the type [Level]
    outside the four constants: the array index panics, where
    [toLogrusLevel] falls back to its default for the same value. *)
Theorem Level_String_out_of_range :
  Level_String 4 = Panic "index out of range" ∧ toLogrusLevel 4 = InfoLevel.
Proof. split; reflexivity. Qed.

(** ** Logger *)

Section store_facts.
Implicit Types (st : World) (p q : loc) (m : gmap string value).

Lemma deref_store_eq p m st : deref (store p m st) p = m.
Proof. unfold deref, store; simpl. by rewrite lookup_insert_eq. Qed.

Lemma deref_store_ne p q m st : p ≠ q → deref (store p m st) q = deref st q.
Proof. intros Hne. unfold deref, store; simpl. by rewrite lookup_insert_ne. Qed.

Lemma fresh_unused st : maps st !! fresh (dom (maps st)) = None.
Proof. apply not_elem_of_dom, is_fresh. Qed.

Lemma fresh_ne st q : is_Some (maps st !! q) → fresh (dom (maps st)) ≠ q.
Proof.
  intros [m Hq] Heq. pose proof (fresh_unused st) as Hf.
  rewrite Heq in Hf. congruence.
Qed.

Lemma enrich_empty : enrich ∅ = ∅.
Proof. reflexivity. Qed.

(** The write of the stack trace, seen from the caller's reference and
    from any other one. *)
Lemma add_stack_trace_here p st :
  deref (add_stack_trace p st) p = enrich (deref st p).
Proof.
  unfold add_stack_trace, enrich, deref.
  destruct (maps st !! p) as [m|] eqn:Hp; simpl.
  - destruct (m !! ErrorKey) as [val|] eqn:He.
    + unfold store; simpl. by rewrite lookup_insert_eq.
    + by rewrite Hp.
  - by rewrite Hp.
Qed.

Lemma add_stack_trace_lookup_ne p q st :
  p ≠ q → maps (add_stack_trace p st) !! q = maps st !! q.
Proof.
  intros Hne. unfold add_stack_trace.
  destruct (maps st !! p) as [m|]; [|done].
  destruct (m !! ErrorKey); [|done].
  unfold store; simpl. by rewrite lookup_insert_ne.
Qed.

Lemma add_stack_trace_elsewhere p q st :
  p ≠ q → deref (add_stack_trace p st) q = deref st q.
Proof. intros Hne. unfold deref. by rewrite add_stack_trace_lookup_ne. Qed.

Lemma add_stack_trace_allocated p q st :
  is_Some (maps st !! q) → is_Some (maps (add_stack_trace p st) !! q).
Proof.
  intros Hq. destruct (decide (p = q)) as [-> | Hne].
  - unfold add_stack_trace. destruct Hq as [m Hm]. rewrite Hm.
    destruct (m !! ErrorKey); [|by eauto].
    unfold store; simpl. rewrite lookup_insert_eq. by eauto.
  - by rewrite add_stack_trace_lookup_ne.
Qed.

Lemma add_stack_trace_written p st : written (add_stack_trace p st) = written st.
Proof.
  unfold add_stack_trace.
  destruct (maps st !! p) as [m|]; [|done]. by destruct (m !! ErrorKey).
Qed.
End store_facts.

(** [WithFields], step by step: the stack trace goes into the caller's
    map, a map not in use receives the merge, and the logger returned
    points to it. *)
Lemma WithFields_unfold (l : Logger) (fields : loc) (st : World) :
  let st1 := add_stack_trace fields st in
  let p := fresh (dom (maps st1)) in
  WithFields l fields st =
    (store p (storable (enrich (deref st fields)) ∪ deref st1 (Data (logger l))) st1,
     {| logger := {| Logger_Level := Logger_Level (logger l);
                     Logger_Out := Logger_Out (logger l); Data := p |} |}).
Proof.
  simpl. unfold WithFields, Entry_WithFields, alloc.
  by rewrite add_stack_trace_here.
Qed.

Lemma WithFields_written (l : Logger) (fields : loc) (st : World) :
  written (WithFields l fields st).1 = written st.
Proof.
  pose proof (WithFields_unfold l fields st) as Hu. simpl in Hu. rewrite Hu.
  simpl. apply add_stack_trace_written.
Qed.

(** A map in use before the call that is not the one passed is the same
    after it. *)
Lemma WithFields_frame (l : Logger) (fields q : loc) (st : World) :
  is_Some (maps st !! q) → fields ≠ q →
  deref (WithFields l fields st).1 q = deref st q.
Proof.
  intros Hq Hne.
  pose proof (WithFields_unfold l fields st) as Hu. simpl in Hu. rewrite Hu. simpl.
  rewrite deref_store_ne.
  - by apply add_stack_trace_elsewhere.
  - apply fresh_ne. by apply add_stack_trace_allocated.
Qed.

Lemma WithFields_allocated (l : Logger) (fields q : loc) (st : World) :
  is_Some (maps st !! q) → is_Some (maps (WithFields l fields st).1 !! q).
Proof.
  intros Hq.
  pose proof (WithFields_unfold l fields st) as Hu. simpl in Hu. rewrite Hu. simpl.
  rewrite lookup_insert_ne.
  - by apply add_stack_trace_allocated.
  - apply fresh_ne. by apply add_stack_trace_allocated.
Qed.

(** The caller's map after the call. *)
Lemma WithFields_argument (l : Logger) (fields : loc) (st : World) :
  is_Some (maps st !! fields) →
  deref (WithFields l fields st).1 fields = enrich (deref st fields).
Proof.
  intros Hq.
  pose proof (WithFields_unfold l fields st) as Hu. simpl in Hu. rewrite Hu. simpl.
  rewrite deref_store_ne.
  - apply add_stack_trace_here.
  - apply fresh_ne. by apply add_stack_trace_allocated.
Qed.

(** The fields of the logger returned. *)
Lemma WithFields_fields (l : Logger) (fields : loc) (st : World) :
  fields ≠ Data (logger l) →
  fields_of (WithFields l fields st).1 (WithFields l fields st).2 =
    storable (enrich (deref st fields)) ∪ fields_of st l.
Proof.
  intros Hne.
  pose proof (WithFields_unfold l fields st) as Hu. simpl in Hu. rewrite Hu.
  unfold fields_of; simpl. rewrite deref_store_eq.
  by rewrite add_stack_trace_elsewhere.
Qed.

Lemma WithFields_Data_fresh (l : Logger) (fields q : loc) (st : World) :
  is_Some (maps st !! q) → Data (logger (WithFields l fields st).2) ≠ q.
Proof.
  intros Hq.
  pose proof (WithFields_unfold l fields st) as Hu. simpl in Hu. rewrite Hu. simpl.
  apply fresh_ne. by apply add_stack_trace_allocated.
Qed.

Lemma enrich_idemp (m : gmap string value) : enrich (enrich m) = enrich m.
Proof.
  unfold enrich. destruct (m !! ErrorKey) as [val|] eqn:He.
  - rewrite lookup_insert_ne by discriminate. rewrite He.
    by rewrite insert_insert_eq.
  - by rewrite He.
Qed.

(** A mapping with no "error" key and no function value is stored as it
    is. *)
Lemma storable_enrich_plain (m : gmap string value) :
  m !! ErrorKey = None →
  (∀ k v, m !! k = Some v → is_func v = false) →
  storable (enrich m) = m.
Proof.
  intros He Hplain. unfold enrich, storable. rewrite He.
  apply map_eq. intros k. rewrite map_lookup_filter.
  destruct (m !! k) as [v|] eqn:Hk; simpl; [|done].
  rewrite option_guard_True; [done | by apply (Hplain k)].
Qed.

(** C1, as stated, fails: a logger that already has the field requestId
    keeps it, so the fields after two calls are not those of the two
    mappings alone. *)
Lemma WithFields_chain_keeps_receiver_fields :
  let st := {| maps := {[ 1%positive := {[ "requestId" := VString "42" ]};
                          2%positive := {[ "a" := VInt 1 ]};
                          3%positive := {[ "b" := VInt 2 ]} ]};
               written := [] |} in
  let L := {| logger := {| Logger_Level := DebugLevel; Logger_Out := Stdout; Data := 1%positive |} |} in
  let c1 := WithFields L 2%positive st in
  let c2 := WithFields c1.2 3%positive c1.1 in
  fields_of c2.1 c2.2 ≠ ({[ "b" := VInt 2 ]} ∪ {[ "a" := VInt 1 ]} : gmap string value).
Proof.
  intros st L c1 c2 Heq.
  apply (f_equal (λ m : gmap string value, m !! "requestId")) in Heq.
  vm_compute in Heq. discriminate.
Qed.

(** C1 (amended): after L.WithFields(F1).WithFields(F2), for mappings
    that are not L's own field map, the fields of the logger returned
    are L's fields, overridden by those of F1 and then by those of F2,
    each mapping taken with the stack trace written into it when it has
    the key "error" and without its function values; L's fields are
    what they were, and nothing has been written to a sink. *)
Theorem WithFields_chain (L : Logger) (r1 r2 : loc) (st : World)
    (D F1 F2 : gmap string value) :
  maps st !! Data (logger L) = Some D →
  maps st !! r1 = Some F1 →
  maps st !! r2 = Some F2 →
  r1 ≠ Data (logger L) →
  r2 ≠ Data (logger L) →
  let c1 := WithFields L r1 st in
  let c2 := WithFields c1.2 r2 c1.1 in
  fields_of c2.1 c2.2 = storable (enrich F2) ∪ (storable (enrich F1) ∪ D)
  ∧ fields_of c2.1 L = D
  ∧ written c2.1 = written st.
Proof.
  intros HD H1 H2 Hn1 Hn2 c1 c2.
  assert (deref st (Data (logger L)) = D) as HdD by (unfold deref; by rewrite HD).
  assert (deref st r1 = F1) as Hd1 by (unfold deref; by rewrite H1).
  assert (deref st r2 = F2) as Hd2 by (unfold deref; by rewrite H2).
  assert (fields_of c1.1 c1.2 = storable (enrich F1) ∪ D) as Hc1.
  { subst c1. rewrite WithFields_fields by done. unfold fields_of. by rewrite Hd1, HdD. }
  assert (enrich (deref c1.1 r2) = enrich F2) as Hr2.
  { subst c1. destruct (decide (r1 = r2)) as [-> | Hne].
    - rewrite WithFields_argument by eauto.
      rewrite Hd1 in Hd2. subst F2. rewrite Hd1. apply enrich_idemp.
    - rewrite WithFields_frame by eauto. by rewrite Hd2. }
  split; [|split].
  - subst c2. rewrite WithFields_fields.
    + by rewrite Hr2, Hc1.
    + intros Heq. symmetry in Heq. revert Heq. subst c1.
      apply WithFields_Data_fresh. eauto.
  - subst c2. unfold fields_of. rewrite WithFields_frame.
    + subst c1. rewrite WithFields_frame by eauto. done.
    + subst c1. apply WithFields_allocated. eauto.
    + done.
  - subst c2 c1. by rewrite !WithFields_written.
Qed.

Lemma WithFields_chain_witness :
  let st := {| maps := {[ 1%positive := {[ "requestId" := VString "42" ]};
                          2%positive := {[ "error" := VError "boom" EmptyString ]};
                          3%positive := {[ "b" := VInt 2 ]} ]};
               written := [] |} in
  let L := {| logger := {| Logger_Level := DebugLevel; Logger_Out := Stdout; Data := 1%positive |} |} in
  let c1 := WithFields L 2%positive st in
  let c2 := WithFields c1.2 3%positive c1.1 in
  fields_of c2.1 c2.2 =
    storable (enrich {[ "b" := VInt 2 ]}) ∪
    (storable (enrich {[ "error" := VError "boom" EmptyString ]}) ∪ {[ "requestId" := VString "42" ]})
  ∧ fields_of c2.1 L = {[ "requestId" := VString "42" ]}
  ∧ written c2.1 = [].
Proof.
  apply (WithFields_chain
           {| logger := {| Logger_Level := DebugLevel; Logger_Out := Stdout; Data := 1%positive |} |}
           2%positive 3%positive); try reflexivity; discriminate.
Defined.

(** C5, as stated, fails at the mapping that sends "error" to the empty
    string: the logger returned has no field "stackTrace", and the field
    the code writes, "stack_trace", is the empty string. *)
Lemma stack_trace_of_empty_error :
  let st := {| maps := {[ 1%positive := ∅; 2%positive := {[ "error" := VString EmptyString ]} ]};
               written := [] |} in
  let L := {| logger := {| Logger_Level := DebugLevel; Logger_Out := Stdout; Data := 1%positive |} |} in
  let c := WithFields L 2%positive st in
  fields_of c.1 c.2 !! "stackTrace" = None
  ∧ fields_of c.1 c.2 !! StacktraceKey = Some (VString EmptyString).
Proof. vm_compute. split; reflexivity. Qed.

(** C5 (amended): for a mapping with the key "error", the logger that
    [WithFields] returns has the field "stack_trace", and its value is
    the verbose rendering of the error value the mapping held when the
    call was made (empty when that rendering is empty). *)
Theorem WithFields_stack_trace (L : Logger) (fields : loc) (st : World)
    (F : gmap string value) (val : value) :
  maps st !! fields = Some F →
  F !! ErrorKey = Some val →
  fields_of (WithFields L fields st).1 (WithFields L fields st).2 !! StacktraceKey
    = Some (VString (Sprintf_plus_v val)).
Proof.
  intros HF He.
  pose proof (WithFields_unfold L fields st) as Hu. simpl in Hu. rewrite Hu.
  unfold fields_of; simpl. rewrite deref_store_eq.
  apply lookup_union_Some_l. unfold storable.
  apply map_lookup_filter_Some. split; [|reflexivity].
  unfold deref. rewrite HF. simpl. unfold enrich. rewrite He.
  apply lookup_insert_eq.
Qed.

Lemma WithFields_stack_trace_witness :
  let st := {| maps := {[ 1%positive := ∅;
                          2%positive := {[ "error" := VError "boom" " at main.go:7" ]} ]};
               written := [] |} in
  let L := {| logger := {| Logger_Level := DebugLevel; Logger_Out := Stdout; Data := 1%positive |} |} in
  fields_of (WithFields L 2%positive st).1 (WithFields L 2%positive st).2 !! StacktraceKey
    = Some (VString "boom at main.go:7").
Proof.
  apply (WithFields_stack_trace _ 2%positive _
           {[ "error" := VError "boom" " at main.go:7" ]} (VError "boom" " at main.go:7"));
    reflexivity.
Defined.

(** C10: for a mapping with the key "error", [WithFields] writes the
    key "stack_trace" into the map the caller passed: after the call the
    caller's own map is the one it passed with that entry put in, one
    entry larger when it had no such key. *)
Theorem WithFields_mutates_argument (L : Logger) (fields : loc) (st : World)
    (F : gmap string value) (val : value) :
  maps st !! fields = Some F →
  F !! ErrorKey = Some val →
  let st' := (WithFields L fields st).1 in
  maps st' !! fields = Some (<[StacktraceKey := VString (Sprintf_plus_v val)]> F)
  ∧ is_Some (deref st' fields !! StacktraceKey)
  ∧ (F !! StacktraceKey = None → size (deref st' fields) = S (size F)).
Proof.
  intros HF He st'.
  assert (maps st' !! fields = Some (<[StacktraceKey := VString (Sprintf_plus_v val)]> F)) as Hm.
  { subst st'.
    pose proof (WithFields_unfold L fields st) as Hu. simpl in Hu. rewrite Hu. simpl.
    rewrite lookup_insert_ne.
    - unfold add_stack_trace. rewrite HF, He. unfold store; simpl.
      apply lookup_insert_eq.
    - apply fresh_ne. apply add_stack_trace_allocated. eauto. }
  split; [exact Hm|].
  unfold deref. rewrite Hm. simpl. split.
  - rewrite lookup_insert_eq. eauto.
  - intros Hnone. by apply map_size_insert_None.
Qed.

Lemma WithFields_mutates_argument_witness :
  let st := {| maps := {[ 1%positive := ∅; 2%positive := {[ "error" := VString "boom" ]} ]};
               written := [] |} in
  let L := {| logger := {| Logger_Level := DebugLevel; Logger_Out := Stdout; Data := 1%positive |} |} in
  let st' := (WithFields L 2%positive st).1 in
  maps st' !! 2%positive =
    Some (<[StacktraceKey := VString "boom"]> ({[ "error" := VString "boom" ]} : gmap string value))
  ∧ is_Some (deref st' 2%positive !! StacktraceKey)
  ∧ (({[ "error" := VString "boom" ]} : gmap string value) !! StacktraceKey = None →
     size (deref st' 2%positive) = 2%nat).
Proof.
  intros st L.
  exact (WithFields_mutates_argument L 2%positive st
           {[ "error" := VString "boom" ]} (VString "boom") eq_refl eq_refl).
Defined.

(** ** Correlation context *)

Lemma New_fresh (l : Level) (o : Writer) (st : World) :
  let c := New l o st in
  Logger_Level (logger c.2) = toLogrusLevel l
  ∧ Logger_Out (logger c.2) = o
  ∧ maps st !! Data (logger c.2) = None
  ∧ fields_of c.1 c.2 = ∅
  ∧ written c.1 = written st.
Proof.
  unfold New, alloc, fields_of; simpl.
  rewrite deref_store_eq. repeat split. apply fresh_unused.
Qed.

(** C6, as stated, fails on a context that binds the request ID key to
    a value that is no string, or the logger key to a value that is no
    logger: the type assertion panics. *)
Lemma lookup_panics_on_foreign_value :
  let ctx := WithValue (WithValue Background ContextKeyRequestID (AValue (VInt 42)))
               ContextKeyLogger (AValue (VString "not a logger")) in
  let st := {| maps := ∅; written := [] |} in
  GetRequestID ctx = Panic "interface conversion: interface {} is not string"
  ∧ (GetLogger ctx st).2 = Panic "interface conversion: interface {} is not golog.Logger".
Proof. split; reflexivity. Qed.

(** C6 (amended): on a context whose request ID key is unbound or bound
    to a string, [GetRequestID] returns "Unknown" or that string; on a
    context whose logger key is bound to a logger, [GetLogger] returns
    it and changes nothing; on one whose logger key is unbound it
    returns a logger just built, at INFO, writing to standard output,
    with no field, on a map that was not in use. *)
Theorem context_lookups (ctx : Context) (st : World) :
  (Value ctx ContextKeyRequestID = AValue VNil → GetRequestID ctx = Ok "Unknown")
  ∧ (∀ s, Value ctx ContextKeyRequestID = AValue (VString s) → GetRequestID ctx = Ok s)
  ∧ (∀ l, Value ctx ContextKeyLogger = ALogger l → GetLogger ctx st = (st, Ok l))
  ∧ (Value ctx ContextKeyLogger = AValue VNil →
     ∃ st' l, GetLogger ctx st = (st', Ok l)
       ∧ Logger_Level (logger l) = toLogrusLevel INFO
       ∧ Logger_Out (logger l) = Stdout
       ∧ maps st !! Data (logger l) = None
       ∧ fields_of st' l = ∅
       ∧ written st' = written st).
Proof.
  unfold GetRequestID, GetLogger. repeat split.
  - by intros ->.
  - by intros s ->.
  - by intros l ->.
  - intros ->.
    pose proof (New_fresh INFO Stdout st) as Hn. cbv zeta in Hn.
    destruct (New INFO Stdout st) as [st' l]. simpl in Hn.
    exists st', l. split; [reflexivity | exact Hn].
Qed.

Lemma context_lookups_witness :
  GetRequestID Background = Ok "Unknown"
  ∧ GetRequestID (WithValue Background ContextKeyRequestID (AValue (VString "r-1"))) = Ok "r-1"
  ∧ (∃ st' l, GetLogger Background {| maps := ∅; written := [] |} = (st', Ok l)
       ∧ Logger_Level (logger l) = InfoLevel
       ∧ Logger_Out (logger l) = Stdout
       ∧ maps {| maps := ∅; written := [] |} !! Data (logger l) = None
       ∧ fields_of st' l = ∅
       ∧ written st' = []).
Proof.
  destruct (context_lookups Background {| maps := ∅; written := [] |})
    as (Hunbound & _ & _ & Hdefault).
  destruct (context_lookups (WithValue Background ContextKeyRequestID (AValue (VString "r-1")))
              {| maps := ∅; written := [] |}) as (_ & Hbound & _ & _).
  split; [|split].
  - apply Hunbound. reflexivity.
  - apply Hbound. reflexivity.
  - apply Hdefault. reflexivity.
Defined.

(** A binding of another key type with the same text is not seen. *)
Example foreign_key_is_not_seen :
  GetRequestID (WithValue Background (foreignKey "string" "requestId") (AValue (VInt 7)))
    = Ok "Unknown".
Proof. reflexivity. Qed.

(** ** Response recorder *)

Section recorder_facts.
Context {W : Type} `{!ResponseWriter W}.
Implicit Types (r : ResponseWriterRecorder W) (b : slice) (w : W).

Lemma Write_body r b : Recorder.Body (Recorder.Write b r).1 = b.
Proof.
  unfold Recorder.Write, Recorder.Body.
  destruct (sink_Write b _) as [w' res]. reflexivity.
Qed.

Lemma Write_status r b :
  Recorder.Status (Recorder.Write b r).1 = if isStatusSet r then status r else StatusOK.
Proof.
  unfold Recorder.Write, Recorder.Status.
  destruct (isStatusSet r); destruct (sink_Write b _) as [w' res]; reflexivity.
Qed.

Lemma Write_isStatusSet r b : isStatusSet (Recorder.Write b r).1 = true.
Proof.
  unfold Recorder.Write.
  destruct (isStatusSet r) eqn:Hs; destruct (sink_Write b _) as [w' res]; simpl; done.
Qed.

(** Once a status is set, writes leave it. *)
Lemma writes_keep_status (bs : list slice) r :
  isStatusSet r = true →
  Recorder.Status (Recorder.run (map Recorder.CallWrite bs) r) = status r.
Proof.
  revert r. induction bs as [|b bs IH]; intros r Hset; [reflexivity|].
  change (Recorder.run (map Recorder.CallWrite (b :: bs)) r)
    with (Recorder.run (map Recorder.CallWrite bs) (Recorder.Write b r).1).
  rewrite IH by apply Write_isStatusSet.
  pose proof (Write_status r b) as Hs. rewrite Hset in Hs. exact Hs.
Qed.

Lemma run_app (cs1 cs2 : list Recorder.call) r :
  Recorder.run (cs1 ++ cs2) r = Recorder.run cs2 (Recorder.run cs1 r).
Proof. unfold Recorder.run. apply fold_left_app. Qed.

(** C4: on a recorder just created, a [Write] with no [WriteHeader]
    before it does what [WriteHeader(200)] followed by that [Write]
    does, and the status stays 200 over any writes; after
    [WriteHeader(code)], whatever came before, the status is [code]
    over any writes that follow; and after any run of calls that ends
    in a [Write], the body is that write's payload. *)
Theorem recorder_capture (w : W) :
  (∀ b, Recorder.Write b (Recorder.NewResponseWriterRecorder w)
        = Recorder.Write b (Recorder.WriteHeader 200 (Recorder.NewResponseWriterRecorder w)))
  ∧ (∀ bs, Recorder.Status
             (Recorder.run (map Recorder.CallWrite bs) (Recorder.NewResponseWriterRecorder w))
           = 200)
  ∧ (∀ calls code bs,
       Recorder.Status
         (Recorder.run (calls ++ Recorder.CallWriteHeader code :: map Recorder.CallWrite bs)
            (Recorder.NewResponseWriterRecorder w))
       = code)
  ∧ (∀ calls b,
       Recorder.Body
         (Recorder.run (calls ++ [Recorder.CallWrite b]) (Recorder.NewResponseWriterRecorder w))
       = b).
Proof.
  split; [|split; [|split]].
  - intros b. reflexivity.
  - intros [|b bs]; [reflexivity|].
    change (Recorder.run (map Recorder.CallWrite (b :: bs)) ?r)
      with (Recorder.run (map Recorder.CallWrite bs) (Recorder.Write b r).1).
    rewrite writes_keep_status by apply Write_isStatusSet.
    apply (Write_status (Recorder.NewResponseWriterRecorder w) b).
  - intros calls code bs. rewrite run_app.
    change (Recorder.run (?c :: ?cs) ?r) with (Recorder.run cs (Recorder.step r c)).
    by rewrite writes_keep_status.
  - intros calls b. rewrite run_app. apply Write_body.
Qed.
End recorder_facts.

(** ** Deferred calls *)

Section defer_facts.
Context {H : Type}.
Implicit Types (h : H) (t : Defer.thunk H) (c : completion).

Lemma unwind_app (d1 d2 : list (Defer.thunk H)) h c :
  Defer.unwind (d1 ++ d2) h c =
    let '(h1, c1) := Defer.unwind d1 h c in Defer.unwind d2 h1 c1.
Proof.
  revert h c. induction d1 as [|t d1 IH]; intros h c; simpl.
  - reflexivity.
  - destruct (t h) as [h' c']. apply IH.
Qed.

(** A deferred call runs when the body that follows it is over, however
    that body ends, after the calls deferred later. *)
Lemma run_after_defer {A} t (m : Defer.body H A) h :
  Defer.run (Defer.defer t ;; m) h =
    let '(h1, c1) := Defer.run m h in Defer.unwind [t] h1 c1.
Proof.
  unfold Defer.run, mbind, body_bind, Defer.bind, Defer.defer.
  destruct (m h) as [[h1 d] x]. apply unwind_app.
Qed.

(** A body that panics skips what follows it. *)
Lemma bind_panic {A B} (m : Defer.body H A) (k : A → Defer.body H B) h h1 d v :
  m h = (h1, d, inr v) → (m ≫= k) h = (h1, d, inr v).
Proof. intros Hm. unfold mbind, body_bind, Defer.bind. by rewrite Hm. Qed.
End defer_facts.

(** ** The logging middleware *)

Section middleware_facts.
Context {W : Type} `{!ResponseWriter W}.
Variable env : Env.
Implicit Types (next : Middleware.Handler (W:=W)) (lg : Logger) (r : Request) (st : World).

(** C3 (amended): for a request whose body is read to its end without
    a read error, [logRequest] leaves a body that yields the bytes the
    original body held, and no error. *)
Theorem logRequest_replays_body lg r st (rd : Reader) :
  req_Body r = Stream rd →
  failure rd = VNil →
  let r' := (Middleware.logRequest env lg r st).2 in
  req_Body r' = Stream (NewBuffer (pending rd))
  ∧ (ReadAll (NewBuffer (pending rd))).2 = (pending rd, VNil).
Proof.
  intros Hbody Hfail r'. split; [|reflexivity].
  subst r'. unfold Middleware.logRequest. rewrite Hbody.
  unfold ReadAll. rewrite Hfail.
  destruct (json_Unmarshal env (pending rd)) as [decoded | err'].
  - destruct (alloc _ st) as [st2 fs]. destruct (WithFields lg fs st2) as [st3 lg3].
    reflexivity.
  - destruct (Middleware.with_bodyError lg err' st) as [st' lg'].
    destruct (alloc _ st') as [st2 fs]. destruct (WithFields lg' fs st2) as [st3 lg3].
    reflexivity.
Qed.

(** C9: the guard of the fallback is false for every variable that
    holds the parameter, so the handler returned uses the logger it
    was given and no default logger is built. *)
Theorem default_logger_unreachable next lg (options : MiddlewareOptions)
    (logger_var : loc) st :
  is_nil (address_of logger_var) = false
  ∧ Middleware.NewMiddlewareWithOptions env next lg options logger_var st
    = (st, Middleware.ServeHTTP env next lg options).
Proof. split; reflexivity. Qed.
End middleware_facts.

(** C3, as stated, fails on a body whose read ends in an error: the
    bytes read before the error are gone, the body left to the handler
    yields none of them. *)
Lemma logRequest_read_error_drains_body :
  let rd := {| pending := list_byte_of_string "abc";
               failure := VError "unexpected EOF" EmptyString |} in
  let c := New DEBUG Stdout empty_world in
  let r' := (Middleware.logRequest sample_env c.2 (post_items (Stream rd)) c.1).2 in
  req_Body r' = Stream {| pending := []; failure := VError "unexpected EOF" EmptyString |}
  ∧ (ReadAll {| pending := []; failure := VError "unexpected EOF" EmptyString |}).2.1
    ≠ pending rd.
Proof. split; [vm_compute; reflexivity | discriminate]. Qed.

Lemma logRequest_replays_body_witness :
  let c := New DEBUG Stdout empty_world in
  let r' := (Middleware.logRequest sample_env c.2
               (post_items (Stream (NewBuffer (list_byte_of_string "hello")))) c.1).2 in
  req_Body r' = Stream (NewBuffer (list_byte_of_string "hello"))
  ∧ (ReadAll (NewBuffer (list_byte_of_string "hello"))).2
    = (list_byte_of_string "hello", VNil).
Proof.
  intros c.
  exact (logRequest_replays_body sample_env c.2
           (post_items (Stream (NewBuffer (list_byte_of_string "hello")))) c.1
           (NewBuffer (list_byte_of_string "hello")) eq_refl eq_refl).
Defined.

(** ** The code run on a request *)

(** POST /items with body [{"a":1}], answered 201 with [{"id":7}]: two
    entries at debug, the request's and the response's, and the response
    delivered as the handler wrote it, with the header Request-ID,
    stored under its canonical key. *)
Example end_to_end :
  let run := Middleware.ServeHTTP sample_env created_handler base_logger.2
               {| LogResponse := true |} no_response
               (post_items (Stream (NewBuffer (list_byte_of_string json_a_1))))
               base_logger.1 in
  let st := Middleware.world run.1 in
  run.2 = Returned
  ∧ map line_severity (written st) = [DebugLevel; DebugLevel]
  ∧ written_at "requestId" st = [Some (VString (uuid_New sample_env));
                                 Some (VString (uuid_New sample_env))]
  ∧ written_at "method" st = [Some (VString "POST"); None]
  ∧ written_at "uri" st = [Some (VString "/items"); None]
  ∧ written_at "requestBody" st = [Some (VOpaque "map[a:1]"); None]
  ∧ written_at "status" st = [None; Some (VInt 201)]
  ∧ written_at "api" st = [None; Some (VString "POST_/items")]
  ∧ written_at "responseBody" st = [None; Some (VOpaque "map[id:7]")]
  ∧ written_at "bodyError" st = [None; None]
  ∧ (responseWriter <$> Middleware.recorder run.1) =
      Some {| sent_header := {[ "Request-Id" := [uuid_New sample_env] ]};
              sent_status := Some 201;
              sent_body := list_byte_of_string json_id_7 |}.
Proof. vm_compute. repeat split. Qed.

(** A body that is no JSON is logged as text, with a body error. *)
Example text_body :
  let run := Middleware.ServeHTTP sample_env created_handler base_logger.2
               {| LogResponse := false |} no_response
               (post_items (Stream (NewBuffer (list_byte_of_string "hello"))))
               base_logger.1 in
  let st := Middleware.world run.1 in
  written_at "requestBody" st = [Some (VString "hello")]
  ∧ written_at "bodyError" st = [Some (VError "invalid character" EmptyString)]
  ∧ (req_Body (Middleware.request run.1)) = Stream (NewBuffer (list_byte_of_string "hello")).
Proof. vm_compute. repeat split. Qed.

(** A handler that panics: the panic goes on to the caller, and the
    response has been logged once, with what the recorder had seen. *)
Example panic_is_logged :
  let run := Middleware.ServeHTTP sample_env panicking_handler base_logger.2
               {| LogResponse := true |} no_response (post_items NoBody) base_logger.1 in
  let st := Middleware.world run.1 in
  run.2 = Panicked (VString "boom")
  ∧ Middleware.steps run.1 = [CallLogRequest; CallHandler; CallLogResponse]
  ∧ written_at "status" st = [None; Some (VInt 200)]
  ∧ written_at "responseBody" st = [None; Some (VString "half")].
Proof. vm_compute. repeat split. Qed.

(** The context the handler is given answers the lookups with the
    request's identifier and logger. *)
Example handler_context :
  let run := Middleware.ServeHTTP sample_env created_handler base_logger.2
               {| LogResponse := true |} no_response (post_items NoBody) base_logger.1 in
  let ctx := req_ctx (Middleware.request run.1) in
  GetRequestID ctx = Ok (uuid_New sample_env)
  ∧ ∃ l, (GetLogger ctx empty_world).2 = Ok l.
Proof. vm_compute. split; [reflexivity | eexists; reflexivity]. Qed.


(** * Further properties of the code *)

(** ** Levels and names *)

(** X1: [Level.String] returns a name exactly for the four levels, and
    the name is the one of the table; every other value panics. *)
Theorem Level_String_table (l : Level) (name : string) :
  Level_String l = Ok name ↔
    (l = DEBUG ∧ name = "debug") ∨ (l = INFO ∧ name = "info") ∨
    (l = WARN ∧ name = "warning") ∨ (l = ERROR ∧ name = "error").
Proof.
  split.
  - unfold Level_String. intros Hs.
    destruct ((0 <=? l)%Z && (l <? 4)%Z) eqn:Hrange; [|discriminate].
    apply andb_true_iff in Hrange as [Hlo Hhi].
    apply Z.leb_le in Hlo. apply Z.ltb_lt in Hhi.
    assert (l = 0 ∨ l = 1 ∨ l = 2 ∨ l = 3)%Z as [-> | [-> | [-> | ->]]] by lia;
      simpl in Hs; inversion Hs; subst; unfold DEBUG, INFO, WARN, ERROR; tauto.
  - intros [[-> ->] | [[-> ->] | [[-> ->] | [-> ->]]]]; reflexivity.
Qed.

Lemma lookupMap_miss (s : string) :
  s ≠ "debug" → s ≠ "info" → s ≠ "warn" → s ≠ "error" → lookupMap !! s = None.
Proof.
  intros H1 H2 H3 H4. destruct (lookupMap !! s) as [l|] eqn:Hl; [|reflexivity].
  apply lookupMap_lookup in Hl. intuition congruence.
Qed.

(** X2: [GetLevel] knows the names info, warn and error, compared as
    they are written; every other string, "warning" and the upper-case
    names among them, yields DEBUG. *)
Theorem GetLevel_table (s : string) :
  GetLevel s =
    if decide (s = "info") then INFO
    else if decide (s = "warn") then WARN
    else if decide (s = "error") then ERROR
    else DEBUG.
Proof.
  repeat case_decide; subst; try reflexivity.
  destruct (decide (s = "debug")) as [-> | Hd]; [reflexivity|].
  unfold GetLevel. by rewrite lookupMap_miss.
Qed.

(** X3: a name comes back from [GetLevel] followed by [Level.String]
    exactly when it is debug, info or error: "warn" comes back as
    "warning", and any other string as "debug". *)
Theorem name_roundtrip (s : string) :
  Level_String (GetLevel s) = Ok s ↔ s = "debug" ∨ s = "info" ∨ s = "error".
Proof.
  rewrite GetLevel_table. split.
  - repeat case_decide; subst; intros Hs; vm_compute in Hs; inversion Hs; subst; tauto.
  - intros [-> | [-> | ->]]; reflexivity.
Qed.

(** X4: [toLogrusLevel] reverses the order of the four levels onto the
    library's levels from debug down to error, and sends every other
    value to the info level: the result is never below error nor above
    debug. *)
Theorem toLogrusLevel_table (l : Level) :
  toLogrusLevel l = (if decide (0 ≤ l < 4)%Z then DebugLevel - l else InfoLevel)
  ∧ (ErrorLevel ≤ toLogrusLevel l ≤ DebugLevel)%Z.
Proof.
  unfold toLogrusLevel, DEBUG, INFO, WARN, ERROR, DebugLevel, InfoLevel, WarnLevel, ErrorLevel.
  case_decide as Hr;
    repeat (match goal with
            | |- context [(?a =? ?b)%Z] => destruct (Z.eqb_spec a b)
            end); subst; split; lia.
Qed.

(** ** Loggers and what they write *)

Lemma Logln_enabled (e : Entry) (sev : Z) (msg : string) (st : World) :
  (sev ≤ Logger_Level e)%Z →
  Logln e sev msg st =
    {| maps := maps st;
       written := written st ++
         [{| line_out := Logger_Out e; line_severity := sev;
             line_message := msg; line_fields := deref st (Data e) |}] |}.
Proof. intros Hle. unfold Logln. by rewrite (proj2 (Z.leb_le _ _) Hle). Qed.

Lemma Logln_disabled (e : Entry) (sev : Z) (msg : string) (st : World) :
  (Logger_Level e < sev)%Z → Logln e sev msg st = st.
Proof. intros Hlt. unfold Logln. by rewrite (proj2 (Z.leb_gt _ _) Hlt). Qed.

(** X5: which of the four emitters of a logger built by [New] at level
    [l] write: [Errorln] always, [Warnln] unless [l] is ERROR, [Infoln]
    unless [l] is WARN or ERROR, [Debugln] only when [l] is DEBUG; one
    that writes adds one entry, with its severity, the message and no
    field, to the logger's sink, and one that does not changes
    nothing. *)
Theorem New_gating (l : Level) (o : Writer) (st : World) (msg : string) :
  let c := New l o st in
  let emitted sev :=
    {| maps := maps c.1;
       written := written c.1 ++
         [{| line_out := o; line_severity := sev; line_message := msg; line_fields := ∅ |}] |} in
  Errorln c.2 msg c.1 = emitted ErrorLevel
  ∧ Warnln c.2 msg c.1 = (if decide (l = ERROR) then c.1 else emitted WarnLevel)
  ∧ Infoln c.2 msg c.1 = (if decide (l = WARN ∨ l = ERROR) then c.1 else emitted InfoLevel)
  ∧ Debugln c.2 msg c.1 = (if decide (l = DEBUG) then emitted DebugLevel else c.1).
Proof.
  intros c emitted.
  assert (deref c.1 (Data (logger c.2)) = ∅) as Hd
    by (subst c; unfold New, alloc; simpl; apply deref_store_eq).
  assert (Logger_Level (logger c.2) = toLogrusLevel l) as Hl by reflexivity.
  assert (Logger_Out (logger c.2) = o) as Ho by reflexivity.
  destruct (toLogrusLevel_table l) as [Ht _]. rewrite Ht in Hl. clear Ht.
  unfold Errorln, Warnln, Infoln, Debugln, DEBUG, INFO, WARN, ERROR, ErrorLevel, WarnLevel,
    InfoLevel, DebugLevel in *.
  repeat split; repeat case_decide;
    first [ lia
          | rewrite Logln_disabled by lia; reflexivity
          | rewrite Logln_enabled by lia; rewrite Hd, Ho; reflexivity ].
Qed.

(** X6: the entry a logger writes after [WithFields] carries the fields
    of the receiver overridden by those of the mapping (with its stack
    trace, without its function values), the severity and the message,
    and goes to the receiver's sink; below the logger's level nothing is
    written. *)
Theorem chained_fields_are_written (lg : Logger) (r : loc) (st : World)
    (sev : Z) (msg : string) :
  r ≠ Data (logger lg) →
  let c := WithFields lg r st in
  written (Logln (logger c.2) sev msg c.1) =
    written st ++
    (if decide (sev ≤ Logger_Level (logger lg))%Z
     then [{| line_out := Logger_Out (logger lg); line_severity := sev; line_message := msg;
              line_fields := storable (enrich (deref st r)) ∪ fields_of st lg |}]
     else []).
Proof.
  intros Hne c.
  pose proof (WithFields_fields lg r st Hne) as Hf. fold c in Hf.
  pose proof (WithFields_written lg r st) as Hw. fold c in Hw.
  assert (Logger_Level (logger c.2) = Logger_Level (logger lg)) as Hl.
  { subst c. pose proof (WithFields_unfold lg r st) as Hu. simpl in Hu. by rewrite Hu. }
  assert (Logger_Out (logger c.2) = Logger_Out (logger lg)) as Ho.
  { subst c. pose proof (WithFields_unfold lg r st) as Hu. simpl in Hu. by rewrite Hu. }
  case_decide as Hsev.
  - rewrite Logln_enabled by lia. cbn [written]. unfold fields_of in Hf.
    by rewrite Hw, Ho, Hf.
  - rewrite Logln_disabled by lia. by rewrite Hw, app_nil_r.
Qed.

Lemma chained_fields_are_written_witness :
  let st := {| maps := {[ 1%positive := {[ "requestId" := VString "42" ]};
                          2%positive := {[ "a" := VInt 1 ]} ]};
               written := [] |} in
  let lg := {| logger := {| Logger_Level := InfoLevel; Logger_Out := Stdout; Data := 1%positive |} |} in
  let c := WithFields lg 2%positive st in
  written (Logln (logger c.2) WarnLevel "slow" c.1) =
    [] ++
    (if decide (WarnLevel ≤ InfoLevel)%Z
     then [{| line_out := Stdout; line_severity := WarnLevel; line_message := "slow";
              line_fields := storable (enrich (deref st 2%positive)) ∪ fields_of st lg |}]
     else []).
Proof.
  intros st lg.
  apply (chained_fields_are_written lg 2%positive st WarnLevel "slow"). discriminate.
Defined.

(** X7: the logger [WithFields] returns has its own copy of the fields:
    whatever the caller puts in its map after the call, the logger's
    fields stay what they were. *)
Theorem logger_fields_are_a_copy (lg : Logger) (r : loc) (st : World)
    (later : gmap string value) :
  is_Some (maps st !! r) →
  let c := WithFields lg r st in
  fields_of (store r later c.1) c.2 = fields_of c.1 c.2.
Proof.
  intros Hr c. unfold fields_of. apply deref_store_ne.
  intros Heq. symmetry in Heq. revert Heq. by apply WithFields_Data_fresh.
Qed.

Lemma logger_fields_are_a_copy_witness :
  let st := {| maps := {[ 1%positive := ∅; 2%positive := {[ "a" := VInt 1 ]} ]};
               written := [] |} in
  let lg := {| logger := {| Logger_Level := InfoLevel; Logger_Out := Stdout; Data := 1%positive |} |} in
  let c := WithFields lg 2%positive st in
  fields_of (store 2%positive {[ "a" := VInt 2 ]} c.1) c.2 = fields_of c.1 c.2.
Proof.
  intros st lg.
  apply (logger_fields_are_a_copy lg 2%positive st {[ "a" := VInt 2 ]}).
  exists {[ "a" := VInt 1 ]}. reflexivity.
Defined.

(** X8: [WithFields] changes no map that was in use before the call,
    except the one it is given, and that one only when it has the key
    "error". *)
Theorem WithFields_touches_only_argument (lg : Logger) (r q : loc) (st : World) :
  is_Some (maps st !! q) →
  q ≠ r ∨ deref st r !! ErrorKey = None →
  maps (WithFields lg r st).1 !! q = maps st !! q.
Proof.
  intros Hq Hcase.
  pose proof (WithFields_unfold lg r st) as Hu. simpl in Hu. rewrite Hu. simpl.
  rewrite lookup_insert_ne by (apply fresh_ne; by apply add_stack_trace_allocated).
  destruct (decide (r = q)) as [-> | Hne]; [|by apply add_stack_trace_lookup_ne].
  destruct Hcase as [Hc | Hc]; [done|].
  unfold add_stack_trace. unfold deref in Hc. destruct Hq as [m Hm].
  rewrite Hm in Hc |- *. simpl in Hc. by rewrite Hc.
Qed.

Lemma WithFields_touches_only_argument_witness :
  let st := {| maps := {[ 1%positive := ∅; 2%positive := {[ "a" := VInt 1 ]} ]};
               written := [] |} in
  let lg := {| logger := {| Logger_Level := InfoLevel; Logger_Out := Stdout; Data := 1%positive |} |} in
  maps (WithFields lg 2%positive st).1 !! 2%positive = maps st !! 2%positive.
Proof.
  intros st lg. apply (WithFields_touches_only_argument lg 2%positive 2%positive st).
  - exists {[ "a" := VInt 1 ]}. reflexivity.
  - right. reflexivity.
Defined.

(** X9: two loggers built by [New] have field maps of their own, both
    empty, and neither was a map in use before. *)
Theorem New_loggers_do_not_share (l1 l2 : Level) (o1 o2 : Writer) (st : World) :
  let c1 := New l1 o1 st in
  let c2 := New l2 o2 c1.1 in
  Data (logger c1.2) ≠ Data (logger c2.2)
  ∧ maps st !! Data (logger c1.2) = None
  ∧ maps st !! Data (logger c2.2) = None
  ∧ fields_of c2.1 c1.2 = ∅
  ∧ fields_of c2.1 c2.2 = ∅.
Proof.
  intros c1 c2.
  destruct (New_fresh l1 o1 st) as (_ & _ & Hn1 & He1 & _). fold c1 in Hn1, He1.
  destruct (New_fresh l2 o2 c1.1) as (_ & _ & Hn2 & He2 & _). fold c2 in Hn2, He2.
  assert (is_Some (maps c1.1 !! Data (logger c1.2))) as Hs1.
  { subst c1. unfold New, alloc, store. simpl. rewrite lookup_insert_eq. eauto. }
  assert (Data (logger c1.2) ≠ Data (logger c2.2)) as Hne.
  { intros Heq. rewrite Heq in Hs1. rewrite Hn2 in Hs1. by destruct Hs1. }
  repeat split; try done.
  - destruct (maps st !! Data (logger c2.2)) as [m|] eqn:Hm; [|done].
    exfalso. assert (maps c1.1 !! Data (logger c2.2) = Some m) as Hm1.
    { subst c1. unfold New, alloc, store. simpl. rewrite lookup_insert_ne; [done|].
      apply fresh_ne. eauto. }
    congruence.
  - unfold fields_of in *. subst c2. unfold New at 1, alloc. simpl.
    rewrite deref_store_ne; [exact He1|].
    intros Heq. apply Hne. symmetry. exact Heq.
Qed.

(** ** The default logger *)

(** X10: [NewDefault] writes to standard output, starts with no field,
    and takes its level from LOGGING_LEVEL: DEBUG when the variable is
    not set, and otherwise the level whose name, among info, warn and
    error, the value is once put in lower case, DEBUG for any other
    value ("warning" and the empty value among them). *)
Theorem NewDefault_level (ToLower : string → string) (environ : gmap string string)
    (st : World) :
  let c := NewDefault ToLower environ st in
  Logger_Out (logger c.2) = Stdout
  ∧ fields_of c.1 c.2 = ∅
  ∧ Logger_Level (logger c.2) =
      match environ !! "LOGGING_LEVEL" with
      | None => DebugLevel
      | Some value =>
          if decide (ToLower value = "info") then InfoLevel
          else if decide (ToLower value = "warn") then WarnLevel
          else if decide (ToLower value = "error") then ErrorLevel
          else DebugLevel
      end.
Proof.
  intros c. subst c. unfold NewDefault.
  destruct (New_fresh (GetLevel (getEnv ToLower environ "LOGGING_LEVEL" "debug")) Stdout st)
    as (Hl & Ho & _ & Hf & _).
  split; [exact Ho | split; [exact Hf |]].
  rewrite Hl. unfold getEnv.
  destruct (environ !! "LOGGING_LEVEL") as [value|]; [|reflexivity].
  rewrite GetLevel_table. repeat case_decide; reflexivity.
Qed.

Example NewDefault_upper_case :
  Logger_Level (logger (NewDefault ToLower_ASCII {[ "LOGGING_LEVEL" := "WARN" ]} empty_world).2)
    = WarnLevel
  ∧ Logger_Level (logger (NewDefault ToLower_ASCII {[ "LOGGING_LEVEL" := "Warning" ]} empty_world).2)
    = DebugLevel.
Proof. split; vm_compute; reflexivity. Qed.

(** ** Correlation context, bindings *)

(** X11: what is bound is what is looked up: a request ID bound last is
    the one returned, whatever the context held before; a nil bound
    last hides an earlier ID and gives "Unknown"; and a logger put in
    with [WithLogger] is the one [GetLogger] returns, with no logger
    built. *)
Theorem context_bind_lookup (ctx : Context) (s : string) (l : Logger) (st : World) :
  GetRequestID (WithValue ctx ContextKeyRequestID (AValue (VString s))) = Ok s
  ∧ GetRequestID (WithValue ctx ContextKeyRequestID (AValue VNil)) = Ok "Unknown"
  ∧ GetLogger (WithLogger ctx l) st = (st, Ok l).
Proof. repeat split. Qed.

(** X12: the two keys do not interfere, and a key of another type with
    the same text is not seen: binding a logger leaves the request ID
    lookup as it was, binding a request ID leaves the logger lookup as
    it was, and a binding under a foreign key changes neither. *)
Theorem context_keys_are_separate (ctx : Context) (l : Logger) (v : any)
    (type name : string) (st : World) :
  GetRequestID (WithLogger ctx l) = GetRequestID ctx
  ∧ GetLogger (WithValue ctx ContextKeyRequestID v) st = GetLogger ctx st
  ∧ GetRequestID (WithValue ctx (foreignKey type name) v) = GetRequestID ctx
  ∧ GetLogger (WithValue ctx (foreignKey type name) v) st = GetLogger ctx st.
Proof. repeat split. Qed.

(** X13: on a context with no logger, each call of [GetLogger] builds a
    logger of its own: two calls in a row return loggers at INFO whose
    field maps are different maps. *)
Theorem GetLogger_default_is_fresh (ctx : Context) (st : World) :
  Value ctx ContextKeyLogger = AValue VNil →
  let c1 := GetLogger ctx st in
  let c2 := GetLogger ctx c1.1 in
  ∃ l1 l2, c1.2 = Ok l1 ∧ c2.2 = Ok l2
    ∧ Logger_Level (logger l1) = InfoLevel ∧ Logger_Level (logger l2) = InfoLevel
    ∧ Data (logger l1) ≠ Data (logger l2).
Proof.
  intros Hnil c1 c2. subst c1 c2. unfold GetLogger. rewrite Hnil.
  destruct (New_fresh INFO Stdout st) as (Hl1 & _ & _ & _ & _).
  destruct (New INFO Stdout st) as [st1 l1] eqn:HN1. simpl in Hl1.
  destruct (New_fresh INFO Stdout st1) as (Hl2 & _ & Hn2 & _ & _).
  cbn [fst snd].
  destruct (New INFO Stdout st1) as [st2 l2] eqn:HN2. simpl in Hl2, Hn2.
  exists l1, l2. repeat split; try done.
  intros Heq. rewrite <- Heq in Hn2.
  unfold New, alloc in HN1. inversion HN1; subst. simpl in Hn2.
  by rewrite lookup_insert_eq in Hn2.
Qed.

Lemma GetLogger_default_is_fresh_witness :
  let c1 := GetLogger Background empty_world in
  let c2 := GetLogger Background c1.1 in
  ∃ l1 l2, c1.2 = Ok l1 ∧ c2.2 = Ok l2
    ∧ Logger_Level (logger l1) = InfoLevel ∧ Logger_Level (logger l2) = InfoLevel
    ∧ Data (logger l1) ≠ Data (logger l2).
Proof. apply (GetLogger_default_is_fresh Background empty_world). reflexivity. Defined.

(** ** Response recorder, what reaches the sink *)

Section recorder_forwarding.
Context {W : Type} `{!ResponseWriter W}.
Implicit Types (r : ResponseWriterRecorder W) (b : slice) (w : W).

Lemma step_isStatusSet r (c : Recorder.call) : isStatusSet (Recorder.step r c) = true.
Proof. destruct c as [code | b]; [reflexivity | apply Write_isStatusSet]. Qed.

Lemma step_forwards r (c : Recorder.call) :
  isStatusSet r = true →
  responseWriter (Recorder.step r c) = sink_step (responseWriter r) c.
Proof.
  intros Hset. destruct c as [code | b]; [reflexivity|].
  simpl. unfold Recorder.Write. rewrite Hset.
  by destruct (sink_Write b (responseWriter r)).
Qed.

Lemma run_forwards (calls : list Recorder.call) r :
  isStatusSet r = true →
  responseWriter (Recorder.run calls r) = sink_run calls (responseWriter r).
Proof.
  revert r. induction calls as [|c calls IH]; intros r Hset; [reflexivity|].
  change (Recorder.run (c :: calls) r) with (Recorder.run calls (Recorder.step r c)).
  change (sink_run (c :: calls) (responseWriter r))
    with (sink_run calls (sink_step (responseWriter r) c)).
  rewrite IH by apply step_isStatusSet. by rewrite step_forwards.
Qed.

Lemma run_isStatusSet (calls : list Recorder.call) r :
  calls ≠ [] → isStatusSet (Recorder.run calls r) = true.
Proof.
  revert r. induction calls as [|c calls IH]; intros r Hne; [done|].
  change (Recorder.run (c :: calls) r) with (Recorder.run calls (Recorder.step r c)).
  destruct calls as [|c' calls]; [apply step_isStatusSet | by apply IH].
Qed.

Lemma new_run_forwards (w : W) (calls : list Recorder.call) :
  responseWriter (Recorder.run calls (Recorder.NewResponseWriterRecorder w))
    = sink_run (forwarded calls) w.
Proof.
  destruct calls as [|[code | b0] calls]; [reflexivity| |].
  - change (Recorder.run (?c :: ?cs) ?r) with (Recorder.run cs (Recorder.step r c)).
    by rewrite run_forwards.
  - change (Recorder.run (?c :: ?cs) ?r) with (Recorder.run cs (Recorder.step r c)).
    rewrite run_forwards by apply step_isStatusSet.
    simpl. unfold Recorder.Write. simpl.
    by destruct (sink_Write b0 (sink_WriteHeader StatusOK w)).
Qed.

(** X14: the sink behind a recorder just created receives the calls
    made on the recorder, each with its own argument and in the same
    order, preceded by [WriteHeader(200)] when the first call is a
    [Write], and nothing else; and a [Write] made after them returns
    what the sink returns for it. *)
Theorem recorder_forwards_calls (w : W) (calls : list Recorder.call) (b : slice) :
  let r := Recorder.run calls (Recorder.NewResponseWriterRecorder w) in
  responseWriter r = sink_run (forwarded calls) w
  ∧ (Recorder.Write b r).2 =
      (sink_Write b
         (sink_run (removelast (forwarded (calls ++ [Recorder.CallWrite b]))) w)).2.
Proof.
  intros r. split; [apply new_run_forwards|].
  destruct calls as [|c calls].
  - subst r. simpl. unfold Recorder.Write. simpl.
    by destruct (sink_Write b (sink_WriteHeader StatusOK w)).
  - assert (removelast (forwarded ((c :: calls) ++ [Recorder.CallWrite b]))
            = forwarded (c :: calls)) as ->.
    { destruct c as [code | b0]; simpl forwarded.
      - apply (removelast_last (Recorder.CallWriteHeader code :: calls)).
      - apply (removelast_last
                 (Recorder.CallWriteHeader StatusOK :: Recorder.CallWrite b0 :: calls)). }
    rewrite <- new_run_forwards. fold r.
    assert (isStatusSet r = true) as Hset by (subst r; by apply run_isStatusSet).
    unfold Recorder.Write. rewrite Hset.
    by destruct (sink_Write b (responseWriter r)).
Qed.

(** X15: after any run of calls on a recorder just created, [Body] is
    the payload of the last [Write] of the run, and nil when the run has
    no [Write]. *)
Theorem recorder_body_is_last_payload (w : W) (calls : list Recorder.call) :
  Recorder.Body (Recorder.run calls (Recorder.NewResponseWriterRecorder w))
    = default None (last (payloads calls)).
Proof.
  change None with (body (Recorder.NewResponseWriterRecorder w)) at 1.
  generalize (Recorder.NewResponseWriterRecorder w). clear w.
  induction calls as [|c calls IH]; intros r; [reflexivity|].
  change (Recorder.run (c :: calls) r) with (Recorder.run calls (Recorder.step r c)).
  rewrite IH. destruct c as [code | b]; [reflexivity|].
  change (payloads (Recorder.CallWrite b :: calls)) with (b :: payloads calls).
  rewrite last_cons.
  change (body (Recorder.step r (Recorder.CallWrite b)))
    with (Recorder.Body (Recorder.Write b r).1).
  rewrite Write_body. by destruct (last (payloads calls)).
Qed.
End recorder_forwarding.

(** ** The middleware, step by step *)

Lemma WithFields_lookup_ne (lg : Logger) (r q : loc) (st : World) :
  is_Some (maps st !! q) → q ≠ r → maps (WithFields lg r st).1 !! q = maps st !! q.
Proof.
  intros Hq Hne.
  pose proof (WithFields_unfold lg r st) as Hu. simpl in Hu. rewrite Hu. simpl.
  rewrite lookup_insert_ne by (apply fresh_ne; by apply add_stack_trace_allocated).
  by apply add_stack_trace_lookup_ne.
Qed.

Lemma WithFields_config (lg : Logger) (r : loc) (st : World) :
  Logger_Level (logger (WithFields lg r st).2) = Logger_Level (logger lg)
  ∧ Logger_Out (logger (WithFields lg r st).2) = Logger_Out (logger lg)
  ∧ is_Some (maps (WithFields lg r st).1 !! Data (logger (WithFields lg r st).2)).
Proof.
  pose proof (WithFields_unfold lg r st) as Hu. simpl in Hu. rewrite Hu. simpl.
  repeat split. rewrite lookup_insert_eq. eauto.
Qed.

(** A logger whose field map is in use extended with a map literal: the
    pattern [logger.WithFields(map[string]interface{}{...})]. *)
Lemma literal_WithFields (lg : Logger) (F : gmap string value) (st : World) :
  is_Some (maps st !! Data (logger lg)) →
  let c := WithFields lg (alloc F st).2 (alloc F st).1 in
  (∀ q, is_Some (maps st !! q) → maps c.1 !! q = maps st !! q)
  ∧ written c.1 = written st
  ∧ fields_of c.1 c.2 = storable (enrich F) ∪ fields_of st lg
  ∧ is_Some (maps c.1 !! Data (logger c.2))
  ∧ Logger_Level (logger c.2) = Logger_Level (logger lg)
  ∧ Logger_Out (logger c.2) = Logger_Out (logger lg).
Proof.
  intros HD c. subst c. unfold alloc. cbn [fst snd].
  set (p := fresh (dom (maps st))). set (st1 := store p F st).
  assert (∀ q, is_Some (maps st !! q) → p ≠ q) as Hp by (intros q Hq; by apply fresh_ne).
  destruct (WithFields_config lg p st1) as (Hl & Ho & Ha).
  split; [|split; [|split; [|split; [|split]]]]; try done.
  - intros q Hq. rewrite WithFields_lookup_ne.
    + subst st1. unfold store. simpl. rewrite lookup_insert_ne; [done | by apply Hp].
    + subst st1. unfold store. simpl. rewrite lookup_insert_ne; [done | by apply Hp].
    + intros Heq. by apply (Hp q).
  - by rewrite WithFields_written.
  - rewrite WithFields_fields by (by apply Hp).
    subst st1. rewrite deref_store_eq. unfold fields_of.
    rewrite deref_store_ne; [done | by apply Hp].
Qed.

(** Membership in a list of keys written out. *)
Ltac key_lists :=
  rewrite ?not_elem_of_cons, ?elem_of_nil in *; intuition congruence.

Section middleware_steps.
Context {W : Type} `{!ResponseWriter W}.
Variable env : Env.
Implicit Types (next : Middleware.Handler (W:=W)) (lg : Logger) (r : Request) (st : World).

(** X16: the type switch of [convertRequestBody] returns the body it is
    given, whatever its type. *)
Theorem convertRequestBody_id (requestBody : value) :
  Middleware.convertRequestBody requestBody = requestBody.
Proof. by destruct requestBody. Qed.

(** X17: [logRequest] changes nothing of the request but its body: the
    method, the path, the URI, the protocol, the remote address, the
    header set and the context are those it was given; a request with
    no body is returned as it is, and one with a body keeps a body. *)
Theorem logRequest_keeps_request lg r st :
  let r' := (Middleware.logRequest env lg r st).2 in
  set_Body (req_Body r') r = r'
  ∧ match req_Body r with
    | NoBody => r' = r
    | Stream _ => req_Body r' ≠ NoBody
    end.
Proof.
  intros r'. subst r'. unfold Middleware.logRequest.
  destruct r as [me pa ur pr ra he bo cx]. cbn [req_Body].
  destruct bo as [|rd].
  - destruct (alloc _ st) as [st2 fs]. destruct (WithFields lg fs st2) as [st3 lg3].
    split; reflexivity.
  - unfold ReadAll. destruct (failure rd) eqn:Hf;
      try (destruct (Middleware.with_bodyError lg _ st) as [st' lg'];
           destruct (alloc _ st') as [st2 fs]; destruct (WithFields lg' fs st2) as [st3 lg3];
           split; [reflexivity | discriminate]).
    destruct (json_Unmarshal env (pending rd)) as [decoded | err'].
    + destruct (alloc _ st) as [st2 fs]. destruct (WithFields lg fs st2) as [st3 lg3].
      split; [reflexivity | discriminate].
    + destruct (Middleware.with_bodyError lg err' st) as [st' lg'].
      destruct (alloc _ st') as [st2 fs]. destruct (WithFields lg' fs st2) as [st3 lg3].
      split; [reflexivity | discriminate].
Qed.

Lemma extends_refl st : extends st st [].
Proof. split; [done | by rewrite app_nil_r]. Qed.

Lemma extends_allocated st st' more q :
  extends st st' more → is_Some (maps st !! q) → is_Some (maps st' !! q).
Proof. intros [Hm _] Hq. by rewrite Hm. Qed.

Lemma extends_trans st1 st2 st3 more1 more2 :
  extends st1 st2 more1 → extends st2 st3 more2 → extends st1 st3 (more1 ++ more2).
Proof.
  intros [Hm1 Hw1] [Hm2 Hw2]. split.
  - intros q Hq. rewrite Hm2, Hm1; [done.. |]. by rewrite Hm1.
  - by rewrite Hw2, Hw1, app_assoc.
Qed.

Lemma extends_fields st st' more lg :
  extends st st' more → is_Some (maps st !! Data (logger lg)) →
  fields_of st' lg = fields_of st lg.
Proof. intros [Hm _] Hq. unfold fields_of, deref. by rewrite Hm. Qed.

(** [logger.WithFields(map[string]interface{}{"bodyError": err})]. *)
Lemma with_bodyError_effect lg (err : value) st :
  is_Some (maps st !! Data (logger lg)) →
  let c := Middleware.with_bodyError lg err st in
  extends st c.1 []
  ∧ fields_of c.1 c.2 = storable {[ "bodyError" := err ]} ∪ fields_of st lg
  ∧ is_Some (maps c.1 !! Data (logger c.2))
  ∧ Logger_Level (logger c.2) = Logger_Level (logger lg)
  ∧ Logger_Out (logger c.2) = Logger_Out (logger lg).
Proof.
  intros HD c.
  destruct (literal_WithFields lg {[ "bodyError" := err ]} st HD)
    as (Hm & Hw & Hf & Ha & Hl & Ho).
  subst c. unfold Middleware.with_bodyError.
  destruct (alloc {[ "bodyError" := err ]} st) as [st1 m]. cbn [fst snd] in *.
  split; [split; [exact Hm | by rewrite Hw, app_nil_r] |].
  split; [exact Hf |]. split; [exact Ha |]. split; [exact Hl | exact Ho].
Qed.

(** [logger.WithFields(map[string]interface{}{...}).Debugln("")] for a
    literal with no key "error". *)
Lemma emit_literal lg (F : gmap string value) st :
  is_Some (maps st !! Data (logger lg)) →
  F !! ErrorKey = None →
  let c := WithFields lg (alloc F st).2 (alloc F st).1 in
  extends st (Debugln c.2 EmptyString c.1)
    (if decide (DebugLevel ≤ Logger_Level (logger lg))%Z
     then [{| line_out := Logger_Out (logger lg); line_severity := DebugLevel;
              line_message := EmptyString; line_fields := storable F ∪ fields_of st lg |}]
     else []).
Proof.
  intros HD HF c.
  destruct (literal_WithFields lg F st HD) as (Hm & Hw & Hf & Ha & Hl & Ho). fold c in Hm, Hw, Hf, Ha, Hl, Ho.
  assert (enrich F = F) as HeF by (unfold enrich; by rewrite HF).
  rewrite HeF in Hf. unfold Debugln.
  case_decide as Hsev.
  - rewrite Logln_enabled by lia. split; cbn [maps written]; [exact Hm|].
    unfold fields_of in Hf. by rewrite Hw, Ho, Hf.
  - rewrite Logln_disabled by lia. split; [exact Hm | by rewrite Hw, app_nil_r].
Qed.

Lemma convertRequestBody_same (requestBody : value) :
  Middleware.convertRequestBody requestBody = requestBody.
Proof. by destruct requestBody. Qed.

(** The last statement of [logRequest], from the logger and the body it
    has reached. *)
Lemma logRequest_tail lg1 r1 (requestBody : value) st1 :
  is_Some (maps st1 !! Data (logger lg1)) →
  let F : gmap string value :=
    list_to_map
      [("remoteAddr", VString (RemoteAddr r1)); ("protocol", VString (Proto r1));
       ("method", VString (Method r1)); ("header", header_value env (req_Header r1));
       ("uri", VString (RequestURI r1)); ("userAgent", VString (UserAgent r1));
       ("requestBody", requestBody)] in
  extends st1
    (let '(st2, fs) := alloc F st1 in
     let '(st3, lg3) := WithFields lg1 fs st2 in
     Debugln lg3 EmptyString st3)
    (if decide (DebugLevel ≤ Logger_Level (logger lg1))%Z
     then [{| line_out := Logger_Out (logger lg1); line_severity := DebugLevel;
              line_message := EmptyString; line_fields := storable F ∪ fields_of st1 lg1 |}]
     else []).
Proof.
  intros HD F.
  pose proof (emit_literal lg1 F st1 HD eq_refl) as He. cbv zeta in He.
  destruct (alloc F st1) as [st2 fs]. cbn [fst snd] in He.
  by destruct (WithFields lg1 fs st2) as [st3 lg3].
Qed.

(** What [logRequest] logs as the body, and the body error if any. *)
Lemma logRequest_effect lg r st :
  is_Some (maps st !! Data (logger lg)) →
  let outcome : value * option value :=
    match req_Body r with
    | NoBody => (VNil, None)
    | Stream rd =>
        match failure rd with
        | VNil =>
            match json_Unmarshal env (pending rd) with
            | inl decoded => (decoded, None)
            | inr err => (VString (string_of_list_byte (pending rd)), Some err)
            end
        | err => (VNil, Some err)
        end
    end in
  let base :=
    match outcome.2 with
    | None => fields_of st lg
    | Some err => storable {[ "bodyError" := err ]} ∪ fields_of st lg
    end in
  let F : gmap string value :=
    list_to_map
      [("remoteAddr", VString (RemoteAddr r)); ("protocol", VString (Proto r));
       ("method", VString (Method r)); ("header", header_value env (req_Header r));
       ("uri", VString (RequestURI r)); ("userAgent", VString (UserAgent r));
       ("requestBody", outcome.1)] in
  extends st (Middleware.logRequest env lg r st).1
    (if decide (DebugLevel ≤ Logger_Level (logger lg))%Z
     then [{| line_out := Logger_Out (logger lg); line_severity := DebugLevel;
              line_message := EmptyString; line_fields := storable F ∪ base |}]
     else []).
Proof.
  intros HD outcome base F.
  assert (∀ st1 lg1 r1 b,
    r1 = set_Body b r →
    extends st st1 [] → fields_of st1 lg1 = base →
    is_Some (maps st1 !! Data (logger lg1)) →
    Logger_Level (logger lg1) = Logger_Level (logger lg) →
    Logger_Out (logger lg1) = Logger_Out (logger lg) →
    extends st
      (let '(st2, fs) :=
         alloc (list_to_map
           [("remoteAddr", VString (RemoteAddr r1));
            ("protocol", VString (Proto r1));
            ("method", VString (Method r1));
            ("header", header_value env (req_Header r1));
            ("uri", VString (RequestURI r1));
            ("userAgent", VString (UserAgent r1));
            ("requestBody", Middleware.convertRequestBody outcome.1)]) st1 in
       let '(st3, lg3) := WithFields lg1 fs st2 in
       Debugln lg3 EmptyString st3)
      (if decide (DebugLevel ≤ Logger_Level (logger lg))%Z
       then [{| line_out := Logger_Out (logger lg); line_severity := DebugLevel;
                line_message := EmptyString; line_fields := storable F ∪ base |}]
       else [])) as Htail.
  { intros st1 lg1 r1 b Hr1 Hext Hf Ha Hl Ho.
    pose proof (logRequest_tail lg1 r1
                  (Middleware.convertRequestBody outcome.1) st1 Ha) as Ht.
    cbv zeta in Ht.
    assert (RemoteAddr r1 = RemoteAddr r) as E1 by (by rewrite Hr1).
    assert (Proto r1 = Proto r) as E2 by (by rewrite Hr1).
    assert (Method r1 = Method r) as E3 by (by rewrite Hr1).
    assert (req_Header r1 = req_Header r) as E4 by (by rewrite Hr1).
    assert (RequestURI r1 = RequestURI r) as E5 by (by rewrite Hr1).
    assert (UserAgent r1 = UserAgent r) as E6 by (by rewrite Hr1).
    rewrite Hl, Ho, Hf in Ht.
    rewrite E1, E2, E3, E4, E5, E6 in Ht |- *.
    rewrite convertRequestBody_same in Ht |- *.
    exact (extends_trans _ _ _ _ _ Hext Ht). }
  unfold Middleware.logRequest.
  assert (r = set_Body (req_Body r) r) as Hsame by (by destruct r).
  subst outcome. destruct (req_Body r) as [|rd] eqn:Hb.
  - cbn [fst snd] in *.
    apply (Htail st lg r NoBody Hsame); try done. apply extends_refl.
  - unfold ReadAll.
    destruct (failure rd) as [| s | n | msg stack | shown | shown] eqn:Hfail;
      [| cbn [fst snd] in *;
         match goal with
         | |- context [Middleware.with_bodyError _ ?e _] =>
             destruct (with_bodyError_effect lg e st HD) as (He & Hf & Ha & Hl & Ho);
             destruct (Middleware.with_bodyError lg e st) as [st' lg'];
             cbn [fst snd] in *;
             by eapply (Htail st' lg'); [reflexivity | ..]
         end ..].
    destruct (json_Unmarshal env (pending rd)) as [decoded | err'].
    + cbn [fst snd] in *.
      apply (Htail st lg _ (Stream (NewBuffer (pending rd))) eq_refl); try done.
      apply extends_refl.
    + cbn [fst snd] in *.
      destruct (with_bodyError_effect lg err' st HD) as (He & Hf & Ha & Hl & Ho).
      destruct (Middleware.with_bodyError lg err' st) as [st' lg']. cbn [fst snd] in *.
      by apply (Htail st' lg' _ (Stream (NewBuffer (pending rd))) eq_refl).
Qed.

Lemma storable_lookup (F : gmap string value) (k : string) (v : value) :
  F !! k = Some v → is_func v = false → storable F !! k = Some v.
Proof. intros HF Hv. unfold storable. by apply map_lookup_filter_Some. Qed.

Lemma storable_lookup_None (F : gmap string value) (k : string) :
  F !! k = None → storable F !! k = None.
Proof. intros HF. unfold storable. apply map_lookup_filter_None. left. exact HF. Qed.

(** X18: [logRequest], for a logger whose field map is in use, changes
    no map in use and writes at most one entry: none below the debug
    level, and at the debug level one entry to the logger's sink, with
    an empty message, that has the method, the URI, the remote address,
    the protocol and the user agent of the request, and, at every key
    the request log does not set, the field the logger had. *)
Theorem logRequest_entry lg r st :
  is_Some (maps st !! Data (logger lg)) →
  ∃ more, extends st (Middleware.logRequest env lg r st).1 more ∧
    if decide (DebugLevel ≤ Logger_Level (logger lg))%Z then
      ∃ line, more = [line]
        ∧ line_out line = Logger_Out (logger lg)
        ∧ line_severity line = DebugLevel
        ∧ line_message line = EmptyString
        ∧ line_fields line !! "method" = Some (VString (Method r))
        ∧ line_fields line !! "uri" = Some (VString (RequestURI r))
        ∧ line_fields line !! "remoteAddr" = Some (VString (RemoteAddr r))
        ∧ line_fields line !! "protocol" = Some (VString (Proto r))
        ∧ line_fields line !! "userAgent" = Some (VString (UserAgent r))
        ∧ (∀ k, k ∉ ["remoteAddr"; "protocol"; "method"; "header"; "uri"; "userAgent";
                     "requestBody"; "bodyError"] →
                line_fields line !! k = fields_of st lg !! k)
    else more = [].
Proof.
  intros HD. pose proof (logRequest_effect lg r st HD) as He. cbv zeta in He.
  eexists. split; [exact He|].
  case_decide as Hsev; [|reflexivity].
  eexists. split; [reflexivity|]. cbn [line_out line_severity line_message line_fields].
  do 3 (split; [reflexivity|]).
  do 5 (split; [apply lookup_union_Some_l, storable_lookup; reflexivity|]).
  intros k Hk.
  rewrite lookup_union_r.
  - destruct (match req_Body r with NoBody => _ | Stream rd => _ end).2 as [err|];
      [|reflexivity].
    rewrite lookup_union_r; [reflexivity|].
    apply storable_lookup_None, lookup_singleton_ne. key_lists.
  - apply storable_lookup_None, not_elem_of_list_to_map_1. cbn [fmap list_fmap fst].
    key_lists.
Qed.

End middleware_steps.

Lemma logRequest_entry_witness :
  ∃ more,
    extends base_logger.1
      (Middleware.logRequest sample_env base_logger.2 (post_items NoBody) base_logger.1).1 more ∧
    if decide (DebugLevel ≤ Logger_Level (logger base_logger.2))%Z then
      ∃ line, more = [line]
        ∧ line_out line = Logger_Out (logger base_logger.2)
        ∧ line_severity line = DebugLevel
        ∧ line_message line = EmptyString
        ∧ line_fields line !! "method" = Some (VString "POST")
        ∧ line_fields line !! "uri" = Some (VString "/items")
        ∧ line_fields line !! "remoteAddr" = Some (VString "10.0.0.1:4000")
        ∧ line_fields line !! "protocol" = Some (VString "HTTP/1.1")
        ∧ line_fields line !! "userAgent" = Some (VString "curl/8")
        ∧ (∀ k, k ∉ ["remoteAddr"; "protocol"; "method"; "header"; "uri"; "userAgent";
                     "requestBody"; "bodyError"] →
                line_fields line !! k = fields_of base_logger.1 base_logger.2 !! k)
    else more = [].
Proof.
  apply (logRequest_entry sample_env base_logger.2 (post_items NoBody) base_logger.1).
  eexists. reflexivity.
Defined.

Section middleware_run.
Context {W : Type} `{!ResponseWriter W}.
Variable env : Env.
Implicit Types (next : Middleware.Handler (W:=W)) (lg : Logger) (r : Request) (st : World).

(** The closure, statement by statement. *)
Lemma ServeHTTP_unfold next lg (options : MiddlewareOptions) (w : W) r st :
  Middleware.ServeHTTP env next lg options w r st =
    let c := request_logger env lg st in
    let ctx1 := WithValue (req_ctx r) ContextKeyRequestID (AValue (VString (uuid_New env))) in
    let r2 := WithContext (WithContext r ctx1) (WithLogger ctx1 c.2) in
    let d := Middleware.logRequest env c.2 r2 c.1 in
    let rec0 := Recorder.Header_Add "Request-ID" (uuid_New env)
                  (Recorder.NewResponseWriterRecorder w) in
    let '(rec', r', st', e) := next rec0 d.2 d.1 in
    ({| Middleware.world :=
          if LogResponse options
          then Middleware.logResponse env c.2 (time_Now env) r' rec' st'
          else st';
        Middleware.request := r';
        Middleware.recorder := Some rec';
        Middleware.steps :=
          [CallLogRequest; CallHandler] ++
          (if LogResponse options then [CallLogResponse] else []) |}, e).
Proof.
  cbv beta iota zeta delta [Middleware.ServeHTTP Middleware.closure Defer.run mbind
    body_bind mret body_ret Defer.bind Defer.modify Defer.invoke Defer.defer Defer.ret
    Middleware.in_world request_logger].
  destruct (alloc _ _) as [st1 m]. cbv beta iota.
  destruct (WithFields lg m st1) as [st2 lg2]. cbv beta iota.
  unfold Middleware.call_logRequest, Middleware.call_next, Middleware.set_recorder,
    Middleware.set_request, Middleware.took.
  cbn [Middleware.world Middleware.request Middleware.recorder Middleware.steps fst snd].
  destruct (Middleware.logRequest env lg2 _ st2) as [st3 r3]. cbn [fst snd].
  destruct (LogResponse options); cbv beta iota;
    cbn [Middleware.world Middleware.request Middleware.recorder Middleware.steps fmap
         option_fmap option_map];
    destruct (next _ r3 st3) as [[[rec' r'] st'] e];
    destruct e; reflexivity.
Qed.

(** X19: a body that is read to its end but is no JSON is logged as its
    text, with the decoder's error as body error: at the debug level the
    one entry [logRequest] writes has both. *)
Theorem logRequest_text_body lg r st (rd : Reader) (err : value) :
  is_Some (maps st !! Data (logger lg)) →
  (DebugLevel ≤ Logger_Level (logger lg))%Z →
  req_Body r = Stream rd →
  failure rd = VNil →
  json_Unmarshal env (pending rd) = inr err →
  is_func err = false →
  ∃ line, written (Middleware.logRequest env lg r st).1 = written st ++ [line]
    ∧ line_fields line !! "requestBody" = Some (VString (string_of_list_byte (pending rd)))
    ∧ line_fields line !! "bodyError" = Some err.
Proof.
  intros HD Hsev Hb Hfail Hjson Herr.
  destruct (logRequest_effect env lg r st HD) as [_ Hw]. cbv zeta in Hw.
  rewrite Hb, Hfail, Hjson in Hw. rewrite decide_True in Hw by done.
  eexists. split; [exact Hw|]. cbn [line_fields fst snd]. split.
  - apply lookup_union_Some_l, storable_lookup; reflexivity.
  - rewrite lookup_union_r by (apply storable_lookup_None; reflexivity).
    apply lookup_union_Some_l, storable_lookup; [apply lookup_singleton_eq | exact Herr].
Qed.

(** X20: when the read of the body fails, the bytes read are not
    logged: at the debug level the one entry [logRequest] writes has a
    nil request body and the read error as body error. *)
Theorem logRequest_read_error lg r st (rd : Reader) :
  is_Some (maps st !! Data (logger lg)) →
  (DebugLevel ≤ Logger_Level (logger lg))%Z →
  req_Body r = Stream rd →
  failure rd ≠ VNil →
  is_func (failure rd) = false →
  ∃ line, written (Middleware.logRequest env lg r st).1 = written st ++ [line]
    ∧ line_fields line !! "requestBody" = Some VNil
    ∧ line_fields line !! "bodyError" = Some (failure rd).
Proof.
  intros HD Hsev Hb Hfail Herr.
  destruct (logRequest_effect env lg r st HD) as [_ Hw]. cbv zeta in Hw.
  rewrite Hb in Hw. rewrite decide_True in Hw by done.
  destruct (failure rd) as [| s | n | msg stack | shown | shown] eqn:Hf; [done|..];
    (eexists; split; [exact Hw|]; cbn [line_fields fst snd]; split;
     [ apply lookup_union_Some_l, storable_lookup; reflexivity
     | rewrite lookup_union_r by (apply storable_lookup_None; reflexivity);
       apply lookup_union_Some_l, storable_lookup; [apply lookup_singleton_eq | exact Herr] ]).
Qed.

(** What [logResponse] writes. *)
Lemma logResponse_effect lg (start : Z) r (w : ResponseWriterRecorder W) st :
  is_Some (maps st !! Data (logger lg)) →
  let outcome : value * option value :=
    match Recorder.Body w with
    | Some b =>
        match json_Unmarshal env b with
        | inl decoded => (decoded, None)
        | inr err => (VString (string_of_list_byte b), Some err)
        end
    | None => (VNil, None)
    end in
  let base :=
    match outcome.2 with
    | None => fields_of st lg
    | Some err => storable {[ "bodyError" := err ]} ∪ fields_of st lg
    end in
  let F : gmap string value :=
    list_to_map
      [("duration", time_Since env start);
       ("header", header_value env (Recorder.Header w));
       ("responseBody", outcome.1);
       ("status", VInt (Recorder.Status w));
       ("api", VString (Method r +:+ "_" +:+ URL_Path r))] in
  extends st (Middleware.logResponse env lg start r w st)
    (if decide (DebugLevel ≤ Logger_Level (logger lg))%Z
     then [{| line_out := Logger_Out (logger lg); line_severity := DebugLevel;
              line_message := EmptyString; line_fields := storable F ∪ base |}]
     else []).
Proof.
  intros HD outcome base F.
  assert (∀ st1 lg1,
    extends st st1 [] → fields_of st1 lg1 = base →
    is_Some (maps st1 !! Data (logger lg1)) →
    Logger_Level (logger lg1) = Logger_Level (logger lg) →
    Logger_Out (logger lg1) = Logger_Out (logger lg) →
    extends st
      (let '(st2, fs) := alloc F st1 in
       let '(st3, lg3) := WithFields lg1 fs st2 in
       Debugln lg3 EmptyString st3)
      (if decide (DebugLevel ≤ Logger_Level (logger lg))%Z
       then [{| line_out := Logger_Out (logger lg); line_severity := DebugLevel;
                line_message := EmptyString; line_fields := storable F ∪ base |}]
       else [])) as Htail.
  { intros st1 lg1 Hext Hf Ha Hl Ho.
    pose proof (emit_literal lg1 F st1 Ha eq_refl) as Ht. cbv zeta in Ht.
    rewrite Hl, Ho, Hf in Ht.
    destruct (alloc F st1) as [st2 fs]. cbn [fst snd] in Ht.
    destruct (WithFields lg1 fs st2) as [st3 lg3].
    exact (extends_trans _ _ _ _ _ Hext Ht). }
  unfold Middleware.logResponse. subst F outcome.
  destruct (Recorder.Body w) as [b|].
  - destruct (json_Unmarshal env b) as [decoded | err].
    + cbn [fst snd] in *. apply (Htail st lg); try done. apply extends_refl.
    + cbn [fst snd] in *.
      destruct (with_bodyError_effect lg err st HD) as (He & Hf & Ha & Hl & Ho).
      destruct (Middleware.with_bodyError lg err st) as [st' lg']. cbn [fst snd] in *.
      by apply (Htail st' lg').
  - cbn [fst snd] in *. apply (Htail st lg); try done. apply extends_refl.
Qed.

(** X21: [logResponse], for a logger whose field map is in use, changes
    no map in use and writes at most one entry: none below the debug
    level, and at the debug level one entry that has the status the
    recorder captured and the identifier METHOD_PATH, the response body
    nil when nothing was written and the text of the body when it is no
    JSON, and, at every key the response log does not set, the field
    the logger had. *)
Theorem logResponse_entry lg (start : Z) r (w : ResponseWriterRecorder W) st :
  is_Some (maps st !! Data (logger lg)) →
  ∃ more, extends st (Middleware.logResponse env lg start r w st) more ∧
    if decide (DebugLevel ≤ Logger_Level (logger lg))%Z then
      ∃ line, more = [line]
        ∧ line_out line = Logger_Out (logger lg)
        ∧ line_severity line = DebugLevel
        ∧ line_fields line !! "status" = Some (VInt (Recorder.Status w))
        ∧ line_fields line !! "api" = Some (VString (Method r +:+ "_" +:+ URL_Path r))
        ∧ match Recorder.Body w with
          | None => line_fields line !! "responseBody" = Some VNil
          | Some b =>
              match json_Unmarshal env b with
              | inl _ => True
              | inr _ => line_fields line !! "responseBody"
                         = Some (VString (string_of_list_byte b))
              end
          end
        ∧ (∀ k, k ∉ ["duration"; "header"; "responseBody"; "status"; "api"; "bodyError"] →
                line_fields line !! k = fields_of st lg !! k)
    else more = [].
Proof.
  intros HD. pose proof (logResponse_effect lg start r w st HD) as He. cbv zeta in He.
  eexists. split; [exact He|].
  case_decide as Hsev; [|reflexivity].
  eexists. split; [reflexivity|]. cbn [line_out line_severity line_message line_fields].
  do 2 (split; [reflexivity|]).
  do 2 (split; [apply lookup_union_Some_l, storable_lookup; reflexivity|]).
  split.
  - destruct (Recorder.Body w) as [b|].
    + destruct (json_Unmarshal env b); [done|].
      apply lookup_union_Some_l, storable_lookup; reflexivity.
    + apply lookup_union_Some_l, storable_lookup; reflexivity.
  - intros k Hk.
    rewrite lookup_union_r.
    + destruct (match Recorder.Body w with Some b => _ | None => _ end).2 as [err|];
        [|reflexivity].
      rewrite lookup_union_r; [reflexivity|].
      apply storable_lookup_None, lookup_singleton_ne. key_lists.
    + apply storable_lookup_None, not_elem_of_list_to_map_1. cbn [fmap list_fmap fst].
      key_lists.
Qed.

(** X22: one request through the middleware is: the handler called
    once, on the recorder, the request and the world the middleware has
    prepared; then, when the option is set, [logResponse] on what the
    handler left, with the request's logger and the start time.  The
    call ends as the handler ended (a panic goes on to the caller), and
    the recorder and the request are left as the handler left them. *)
Theorem ServeHTTP_decomposes next lg (options : MiddlewareOptions) (w : W) r st :
  let h0 := handed env lg w r st in
  let lg2 := (request_logger env lg st).2 in
  ∃ rec0, Middleware.recorder h0 = Some rec0 ∧
    let '(rec', r', st', e) := next rec0 (Middleware.request h0) (Middleware.world h0) in
    Middleware.ServeHTTP env next lg options w r st =
      ({| Middleware.world :=
            if LogResponse options
            then Middleware.logResponse env lg2 (time_Now env) r' rec' st'
            else st';
          Middleware.request := r';
          Middleware.recorder := Some rec';
          Middleware.steps :=
            [CallLogRequest; CallHandler] ++
            (if LogResponse options then [CallLogResponse] else []) |}, e).
Proof.
  intros h0 lg2. subst h0 lg2. unfold handed.
  rewrite (ServeHTTP_unfold idle_handler). cbv zeta. unfold idle_handler.
  cbn [fst Middleware.recorder Middleware.request Middleware.world LogResponse].
  eexists. split; [reflexivity|].
  rewrite (ServeHTTP_unfold next). cbv zeta.
  by destruct (next _ _ _) as [[[rec' r'] st'] e].
Qed.

Lemma logRequest_set_Body lg r st :
  (Middleware.logRequest env lg r st).2
    = set_Body (req_Body (Middleware.logRequest env lg r st).2) r.
Proof.
  unfold Middleware.logRequest.
  destruct r as [me pa ur pr ra he bo cx]. cbn [req_Body].
  destruct bo as [|rd].
  - destruct (alloc _ st) as [st2 fs]. by destruct (WithFields lg fs st2) as [st3 lg3].
  - unfold ReadAll. destruct (failure rd) eqn:Hf;
      try (destruct (Middleware.with_bodyError lg _ st) as [st' lg'];
           destruct (alloc _ st') as [st2 fs];
           by destruct (WithFields lg' fs st2) as [st3 lg3]).
    destruct (json_Unmarshal env (pending rd)) as [decoded | err'].
    + destruct (alloc _ st) as [st2 fs]. by destruct (WithFields lg fs st2) as [st3 lg3].
    + destruct (Middleware.with_bodyError lg err' st) as [st' lg'].
      destruct (alloc _ st') as [st2 fs]. by destruct (WithFields lg' fs st2) as [st3 lg3].
Qed.

Lemma storable_string (k s : string) :
  storable {[ k := VString s ]} = ({[ k := VString s ]} : gmap string value).
Proof.
  unfold storable. apply map_eq. intros j. rewrite map_lookup_filter.
  destruct (decide (k = j)) as [-> | Hne].
  - rewrite lookup_singleton_eq. reflexivity.
  - by rewrite lookup_singleton_ne.
Qed.

(** X23: what the handler is given, for a logger whose field map is in
    use: a recorder just created over the sink, whose header set has
    received Request-ID; a request with the method, path, URI and header
    set of the incoming one, in whose context [GetRequestID] returns the
    identifier drawn for the request and [GetLogger] the request's
    logger; and that logger has the fields of the middleware's logger
    and the field requestId with the same identifier. *)
Theorem handler_is_given lg (w : W) r st :
  is_Some (maps st !! Data (logger lg)) →
  let h0 := handed env lg w r st in
  let lg2 := (request_logger env lg st).2 in
  Middleware.recorder h0 =
    Some (Recorder.Header_Add "Request-ID" (uuid_New env)
            (Recorder.NewResponseWriterRecorder w))
  ∧ GetRequestID (req_ctx (Middleware.request h0)) = Ok (uuid_New env)
  ∧ (∀ st', GetLogger (req_ctx (Middleware.request h0)) st' = (st', Ok lg2))
  ∧ fields_of (Middleware.world h0) lg2
      = {[ "requestId" := VString (uuid_New env) ]} ∪ fields_of st lg
  ∧ Method (Middleware.request h0) = Method r
  ∧ URL_Path (Middleware.request h0) = URL_Path r
  ∧ RequestURI (Middleware.request h0) = RequestURI r
  ∧ req_Header (Middleware.request h0) = req_Header r.
Proof.
  intros HD h0 lg2. subst h0. unfold handed.
  rewrite (ServeHTTP_unfold idle_handler). cbv zeta. unfold idle_handler.
  cbn [fst Middleware.recorder Middleware.request Middleware.world LogResponse].
  fold lg2.
  set (r2 := WithContext _ (WithLogger _ lg2)).
  pose proof (logRequest_set_Body lg2 r2 (request_logger env lg st).1) as Hr.
  split; [reflexivity|].
  rewrite Hr. cbn [set_Body req_ctx Method URL_Path RequestURI req_Header].
  split; [reflexivity|]. split; [reflexivity|].
  split; [|repeat split].
  destruct (literal_WithFields lg {[ "requestId" := VString (uuid_New env) ]} st HD)
    as (_ & _ & Hf & Ha & _).
  assert (request_logger env lg st
          = WithFields lg (alloc {[ "requestId" := VString (uuid_New env) ]} st).2
              (alloc {[ "requestId" := VString (uuid_New env) ]} st).1) as Hrl.
  { unfold request_logger. by destruct (alloc _ st). }
  rewrite <- Hrl in Hf, Ha. fold lg2 in Hf, Ha.
  destruct (logRequest_effect env lg2 r2 _ Ha) as [Hm _].
  unfold fields_of, deref. rewrite Hm by exact Ha.
  unfold fields_of, deref in Hf. rewrite Hf.
  change (enrich {[ "requestId" := VString (uuid_New env) ]})
    with ({[ "requestId" := VString (uuid_New env) ]} : gmap string value).
  by rewrite storable_string.
Qed.

(** C2: with the option [LogResponse] set, [logResponse] is executed
    exactly once per request, after the handler has been called and
    whether the handler returns or panics: the world the request leaves
    is [logResponse] applied once, with the request's logger and the
    start time, to the request, the recorder and the world as the
    handler left them, the call ends as the handler ended, and the
    response step is the last of the three steps taken; for a logger at
    the debug level whose field map the handler has left in place, what
    has been written is what the handler left written followed by one
    entry, which reports the status the recorder captured.  With the
    option unset [logResponse] is never executed: the world is the one
    the handler left, and two steps are taken.  (The logger is one whose
    entry exists and the request one a server hands over, so nothing
    before the handler panics.) *)
Theorem logResponse_runs_once next lg (w : W) r st :
  let h0 := handed env lg w r st in
  let lg2 := (request_logger env lg st).2 in
  let on := Middleware.ServeHTTP env next lg {| LogResponse := true |} w r st in
  let off := Middleware.ServeHTTP env next lg {| LogResponse := false |} w r st in
  ∃ rec0, Middleware.recorder h0 = Some rec0 ∧
    let '(rec', r', st', e) := next rec0 (Middleware.request h0) (Middleware.world h0) in
    Middleware.world on.1 = Middleware.logResponse env lg2 (time_Now env) r' rec' st'
    ∧ Middleware.recorder on.1 = Some rec'
    ∧ Middleware.steps on.1 = [CallLogRequest; CallHandler; CallLogResponse]
    ∧ on.2 = e
    ∧ (is_Some (maps st' !! Data (logger lg2)) →
       (DebugLevel ≤ Logger_Level (logger lg))%Z →
       ∃ line, written (Middleware.world on.1) = written st' ++ [line]
         ∧ line_severity line = DebugLevel
         ∧ line_fields line !! "status" = Some (VInt (Recorder.Status rec')))
    ∧ Middleware.world off.1 = st'
    ∧ Middleware.steps off.1 = [CallLogRequest; CallHandler]
    ∧ off.2 = e.
Proof.
  intros h0 lg2 on off. subst h0 on off. unfold handed.
  rewrite (ServeHTTP_unfold idle_handler). cbv zeta. unfold idle_handler.
  cbn [fst Middleware.recorder Middleware.request Middleware.world LogResponse].
  eexists. split; [reflexivity|].
  rewrite !(ServeHTTP_unfold next). cbv zeta. fold lg2.
  destruct (next _ _ _) as [[[rec' r'] st'] e].
  cbn [fst snd Middleware.world Middleware.recorder Middleware.steps LogResponse].
  do 4 (split; [reflexivity|]).
  split; [|repeat split].
  intros HD Hsev.
  assert (Logger_Level (logger lg2) = Logger_Level (logger lg)) as Hlevel.
  { subst lg2. unfold request_logger. destruct (alloc _ st) as [st1 m].
    apply WithFields_config. }
  destruct (logResponse_effect lg2 (time_Now env) r' rec' st' HD) as [_ Hw].
  cbv zeta in Hw. rewrite decide_True in Hw by (by rewrite Hlevel).
  eexists. split; [exact Hw|]. cbn [line_severity line_fields]. split; [reflexivity|].
  apply lookup_union_Some_l, storable_lookup; reflexivity.
Qed.
End middleware_run.

Lemma logRequest_text_body_witness :
  ∃ line,
    written (Middleware.logRequest sample_env base_logger.2
               (post_items (Stream (NewBuffer (list_byte_of_string "hello"))))
               base_logger.1).1 = written base_logger.1 ++ [line]
    ∧ line_fields line !! "requestBody"
      = Some (VString (string_of_list_byte
                         (pending (NewBuffer (list_byte_of_string "hello")))))
    ∧ line_fields line !! "bodyError" = Some (VError "invalid character" EmptyString).
Proof.
  apply (logRequest_text_body sample_env base_logger.2
           (post_items (Stream (NewBuffer (list_byte_of_string "hello")))) base_logger.1
           (NewBuffer (list_byte_of_string "hello")) (VError "invalid character" EmptyString)).
  - eexists. reflexivity.
  - vm_compute. discriminate.
  - reflexivity.
  - reflexivity.
  - reflexivity.
  - reflexivity.
Defined.

Lemma logRequest_read_error_witness :
  let rd := {| pending := list_byte_of_string "abc";
               failure := VError "unexpected EOF" EmptyString |} in
  ∃ line,
    written (Middleware.logRequest sample_env base_logger.2 (post_items (Stream rd))
               base_logger.1).1 = written base_logger.1 ++ [line]
    ∧ line_fields line !! "requestBody" = Some VNil
    ∧ line_fields line !! "bodyError" = Some (failure rd).
Proof.
  intros rd.
  apply (logRequest_read_error sample_env base_logger.2 (post_items (Stream rd))
           base_logger.1 rd).
  - eexists. reflexivity.
  - vm_compute. discriminate.
  - reflexivity.
  - discriminate.
  - reflexivity.
Defined.

Lemma logResponse_entry_witness :
  let w := Recorder.WriteHeader 404 (Recorder.NewResponseWriterRecorder no_response) in
  ∃ more,
    extends base_logger.1
      (Middleware.logResponse sample_env base_logger.2 0 (post_items NoBody) w base_logger.1)
      more ∧
    if decide (DebugLevel ≤ Logger_Level (logger base_logger.2))%Z then
      ∃ line, more = [line]
        ∧ line_out line = Logger_Out (logger base_logger.2)
        ∧ line_severity line = DebugLevel
        ∧ line_fields line !! "status" = Some (VInt (Recorder.Status w))
        ∧ line_fields line !! "api"
          = Some (VString (Method (post_items NoBody) +:+ "_" +:+ URL_Path (post_items NoBody)))
        ∧ match Recorder.Body w with
          | None => line_fields line !! "responseBody" = Some VNil
          | Some b =>
              match json_Unmarshal sample_env b with
              | inl _ => True
              | inr _ => line_fields line !! "responseBody"
                         = Some (VString (string_of_list_byte b))
              end
          end
        ∧ (∀ k, k ∉ ["duration"; "header"; "responseBody"; "status"; "api"; "bodyError"] →
                line_fields line !! k = fields_of base_logger.1 base_logger.2 !! k)
    else more = [].
Proof.
  intros w.
  apply (logResponse_entry sample_env base_logger.2 0 (post_items NoBody) w base_logger.1).
  eexists. reflexivity.
Defined.

Lemma handler_is_given_witness :
  let h0 := handed sample_env base_logger.2 no_response (post_items NoBody) base_logger.1 in
  let lg2 := (request_logger sample_env base_logger.2 base_logger.1).2 in
  Middleware.recorder h0 =
    Some (Recorder.Header_Add "Request-ID" (uuid_New sample_env)
            (Recorder.NewResponseWriterRecorder no_response))
  ∧ GetRequestID (req_ctx (Middleware.request h0)) = Ok (uuid_New sample_env)
  ∧ (∀ st', GetLogger (req_ctx (Middleware.request h0)) st' = (st', Ok lg2))
  ∧ fields_of (Middleware.world h0) lg2
      = {[ "requestId" := VString (uuid_New sample_env) ]}
        ∪ fields_of base_logger.1 base_logger.2
  ∧ Method (Middleware.request h0) = Method (post_items NoBody)
  ∧ URL_Path (Middleware.request h0) = URL_Path (post_items NoBody)
  ∧ RequestURI (Middleware.request h0) = RequestURI (post_items NoBody)
  ∧ req_Header (Middleware.request h0) = req_Header (post_items NoBody).
Proof.
  apply (handler_is_given sample_env base_logger.2 no_response (post_items NoBody)
           base_logger.1).
  eexists. reflexivity.
Defined.

(** A handler that panics after half an answer: the panic goes on, and
    the log has gained the one response entry, with the status 200 the
    first write implied. *)
Lemma logResponse_runs_once_witness :
  let on := Middleware.ServeHTTP sample_env panicking_handler base_logger.2
              {| LogResponse := true |} no_response (post_items NoBody) base_logger.1 in
  let off := Middleware.ServeHTTP sample_env panicking_handler base_logger.2
               {| LogResponse := false |} no_response (post_items NoBody) base_logger.1 in
  on.2 = Panicked (VString "boom")
  ∧ ∃ line, written (Middleware.world on.1) = written (Middleware.world off.1) ++ [line]
      ∧ line_severity line = DebugLevel
      ∧ line_fields line !! "status" = Some (VInt 200).
Proof.
  intros on off.
  destruct (logResponse_runs_once sample_env panicking_handler base_logger.2 no_response
              (post_items NoBody) base_logger.1) as (rec0 & Hrec & Hrun).
  fold on off in Hrun.
  destruct (panicking_handler rec0 _ _) as [[[rec' r'] st'] e] eqn:Hnext.
  destruct Hrun as (_ & Hleft & _ & Hend & Hentry & Hoff & _ & Hoffend).
  assert (e = Panicked (VString "boom")) as He
    by (rewrite <- Hoffend; vm_compute; reflexivity).
  assert (Recorder.Status rec' = 200) as Hstatus.
  { assert (Middleware.recorder on.1 = Some rec') as Hr by exact Hleft.
    vm_compute in Hr. injection Hr as <-. reflexivity. }
  split; [by rewrite Hend|].
  rewrite Hoff. rewrite <- Hstatus. apply Hentry.
  - rewrite <- Hoff. eexists. vm_compute. reflexivity.
  - vm_compute. discriminate.
Defined.

Example canonical_header_keys :
  CanonicalMIMEHeaderKey "Request-ID" = "Request-Id"
  ∧ CanonicalMIMEHeaderKey "content-type" = "Content-Type"
  ∧ CanonicalMIMEHeaderKey "not a key" = "not a key".
Proof. repeat split. Qed.

